(** * ProcessMemorySniffer: a shallow embedding and its properties

    The development follows the sources:
    - [ProcessInfo.hpp]          the [ProcessInfo] record,
    - [Win32Error.hpp]           the exception type,
    - [ProcessHandle.hpp]        the owning wrapper of a process [HANDLE],
    - [ProcessQueryService.cpp]  enumeration, inspection and the collection pass,
    - [ProcessMemorySniffer.cpp] the report and [runSniffer],
    - [main.cpp]                 [wmain].

    The Win32 primitives are not part of the program; they are a record of
    stub functions over an abstract operating-system state.  Every call the
    program makes is appended to a log, so that statements about "which calls
    were made" are statements about that log. *)

From Stdlib Require Import String Ascii DecimalString.
From Stdlib Require Import List NArith Arith Lia Bool Permutation Sorted.
Import ListNotations.

Set Implicit Arguments.
Local Open Scope N_scope.

(** ** Machine types *)

Definition DWORD := N.
Definition size_t := N.
Definition HANDLE := N.
Definition wchar_t := N.
Definition wstring := list wchar_t.

Definition nullptr : HANDLE := 0.
Definition sizeof_DWORD : N := 4.
Definition DWORD_modulus : N := 2 ^ 32.

(** [static_cast<DWORD>(x)] of an unsigned value. *)
Definition to_DWORD (x : N) : DWORD := x mod DWORD_modulus.

(** A wide literal [L"..."]: one code unit per character. *)
Definition L (s : string) : wstring :=
  map N_of_ascii (list_ascii_of_string s).

(** Constructing a [std::wstring] from a [wchar_t*]: the characters before
    the first NUL. *)
Fixpoint wstring_of_c_str (buffer : list wchar_t) : wstring :=
  match buffer with
  | [] => []
  | c :: rest => if c =? 0 then [] else c :: wstring_of_c_str rest
  end.

(** [std::to_string] on an unsigned value, and the wide text [operator<<]
    produces for one. *)
Definition to_string (n : N) : string := NilEmpty.string_of_uint (N.to_uint n).
Definition to_wstring (n : N) : wstring := L (to_string n).

(** Windows.h constants the sources use. *)
Definition PROCESS_QUERY_INFORMATION : DWORD := 1024.
Definition PROCESS_VM_READ : DWORD := 16.
Definition MAX_PATH : DWORD := 260.
Definition EXIT_SUCCESS : N := 0.
Definition EXIT_FAILURE : N := 1.

(** ** ProcessInfo.hpp *)

Definition Bytes := size_t.

Record ProcessInfo := mkProcessInfo {
  pid : DWORD;
  name : wstring;
  workingSetBytes : Bytes;
  privateBytes : Bytes
}.

Definition ProcessInfo_default : ProcessInfo :=
  {| pid := 0; name := []; workingSetBytes := 0; privateBytes := 0 |}.

(** ** Win32Error.hpp *)

Inductive Exception :=
| Win32Error_exn (what : string) (code_ : DWORD)
| std_exception (what : string).

(** [Win32Error(context, errorCode)]: the message is
    [context + "(error " + std::to_string(errorCode) + ")"]. *)
Definition Win32Error (context : string) (errorCode : DWORD) : Exception :=
  Win32Error_exn (context ++ "(error " ++ to_string errorCode ++ ")")%string errorCode.

Definition what_of (e : Exception) : string :=
  match e with
  | Win32Error_exn w _ => w
  | std_exception w => w
  end.

(** ** The operating system *)

(** The part of [PROCESS_MEMORY_COUNTERS_EX] the program reads. *)
Record PROCESS_MEMORY_COUNTERS_EX := {
  WorkingSetSize : size_t;
  PrivateUsage : size_t
}.

(** What one [EnumProcesses] call reports: the BOOL it returns, the
    identifiers it stored at the front of the buffer and [*lpcbNeeded]. *)
Record EnumReply := {
  enum_ok : bool;
  enum_written : list DWORD;
  enum_bytes : DWORD
}.

(** The primitives, as functions of the state of the operating system.
    The two name queries answer [None] for a zero return, and otherwise the
    contents they left in the buffer. *)
Record Win32 (OSState : Type) := {
  EnumProcesses : DWORD -> OSState -> EnumReply * OSState;
  GetLastError : OSState -> DWORD;
  OpenProcess : DWORD -> bool -> DWORD -> OSState -> HANDLE * OSState;
  CloseHandle : HANDLE -> OSState -> OSState;
  GetProcessMemoryInfo :
    HANDLE -> OSState -> option PROCESS_MEMORY_COUNTERS_EX * OSState;
  GetModuleBaseNameW :
    HANDLE -> DWORD -> OSState -> option (list wchar_t) * OSState;
  QueryFullProcessImageNameW :
    HANDLE -> DWORD -> DWORD -> OSState -> option (list wchar_t) * OSState
}.

Inductive Call :=
| CallEnumProcesses (cb : DWORD)
| CallGetLastError
| CallOpenProcess (access : DWORD) (inherit : bool) (processId : DWORD)
| CallCloseHandle (h : HANDLE)
| CallGetProcessMemoryInfo (h : HANDLE)
| CallGetModuleBaseNameW (h : HANDLE) (nSize : DWORD)
| CallQueryFullProcessImageNameW (h : HANDLE) (flags : DWORD) (size : DWORD).

Definition is_CloseHandle (c : Call) : bool :=
  match c with CallCloseHandle _ => true | _ => false end.

(** ** The world and the monad of the program *)

Record World (OSState : Type) := mkWorld {
  w_os : OSState;
  w_calls : list Call;
  w_wcout : wstring;
  w_cerr : string
}.

Inductive Outcome (A : Type) :=
| Returned (a : A)
| Thrown (e : Exception)
| OutOfFuel.
Arguments Thrown {A} e.
Arguments OutOfFuel {A}.

Definition M (OSState A : Type) := World OSState -> Outcome A * World OSState.

Section Monad.
Context {OSState : Type}.

Definition ret {A} (a : A) : M OSState A := fun w => (Returned a, w).

Definition bind {A B} (m : M OSState A) (k : A -> M OSState B) : M OSState B :=
  fun w =>
    match m w with
    | (Returned a, w') => k a w'
    | (Thrown e, w') => (Thrown e, w')
    | (OutOfFuel, w') => (OutOfFuel, w')
    end.

Definition throw {A} (e : Exception) : M OSState A := fun w => (Thrown e, w).

Definition out_of_fuel {A} : M OSState A := fun w => (OutOfFuel, w).

(** [try { body } catch (...) { handler }] *)
Definition try_catch {A} (body : M OSState A) (handler : Exception -> M OSState A)
  : M OSState A :=
  fun w =>
    match body w with
    | (Thrown e, w') => handler e w'
    | r => r
    end.

(** A block owning a local object: [finalizer] is the destructor, run when
    the block is left by a return or by an exception. *)
Definition scope_exit {A} (body : M OSState A) (finalizer : M OSState unit)
  : M OSState A :=
  fun w =>
    match body w with
    | (OutOfFuel, w') => (OutOfFuel, w')
    | (r, w') =>
        match finalizer w' with
        | (Returned _, w'') => (r, w'')
        | (Thrown e, w'') => (Thrown e, w'')
        | (OutOfFuel, w'') => (OutOfFuel, w'')
        end
    end.

Definition record_call (c : Call) (st : OSState) (w : World OSState)
  : World OSState :=
  {| w_os := st; w_calls := w_calls w ++ [c];
     w_wcout := w_wcout w; w_cerr := w_cerr w |}.

(** [std::wcout << s] and [std::cerr << s] *)
Definition wcout_put (s : wstring) : M OSState unit :=
  fun w => (Returned tt,
            {| w_os := w_os w; w_calls := w_calls w;
               w_wcout := w_wcout w ++ s; w_cerr := w_cerr w |}).

Definition cerr_put (s : string) : M OSState unit :=
  fun w => (Returned tt,
            {| w_os := w_os w; w_calls := w_calls w;
               w_wcout := w_wcout w; w_cerr := (w_cerr w ++ s)%string |}).
End Monad.

Notation "x <- m ;; k" := (bind m (fun x => k))
  (at level 61, m at next level, right associativity).
Notation "m ;;; k" := (bind m (fun _ => k))
  (at level 61, right associativity).

(** A range-based [for] over a vector, threading the loop's variables. *)
Fixpoint for_each {OSState A S : Type}
    (l : list A) (s : S) (body : S -> A -> M OSState S) : M OSState S :=
  match l with
  | [] => ret s
  | a :: l' => s' <- body s a ;; for_each l' s' body
  end.

(** ** ProcessHandle.hpp *)

Module ProcessHandle.

(** An object of the class is its one data member. *)
Record t := mk { handle_ : HANDLE }.

(** [ProcessHandle()] and [explicit ProcessHandle(HANDLE)] *)
Definition default : t := {| handle_ := nullptr |}.
Definition ctor (handle : HANDLE) : t := {| handle_ := handle |}.

(** [ProcessHandle(ProcessHandle&& other)]: the new object and [other] as
    the constructor leaves it. *)
Definition move_ctor (other : t) : t * t :=
  ({| handle_ := handle_ other |}, {| handle_ := nullptr |}).

(** [get()] and [explicit operator bool()] *)
Definition get (this : t) : HANDLE := handle_ this.
Definition operator_bool (this : t) : bool := negb (handle_ this =? nullptr).

(** The access [open] asks for:
    [PROCESS_QUERY_INFORMATION | PROCESS_VM_READ]. *)
Definition minimal_access : DWORD :=
  N.lor PROCESS_QUERY_INFORMATION PROCESS_VM_READ.

Section WithApi.
Context {OSState : Type} (api : Win32 OSState).

Definition call_CloseHandle (h : HANDLE) : M OSState unit :=
  fun w => (Returned tt,
            record_call (CallCloseHandle h) (CloseHandle api h (w_os w)) w).

Definition call_OpenProcess (access : DWORD) (inherit : bool) (processId : DWORD)
  : M OSState HANDLE :=
  fun w =>
    let '(h, st) := OpenProcess api access inherit processId (w_os w) in
    (Returned h, record_call (CallOpenProcess access inherit processId) st w).

(** [close()]: the object afterwards. *)
Definition close (this : t) : M OSState t :=
  if negb (handle_ this =? nullptr)
  then call_CloseHandle (handle_ this) ;;; ret {| handle_ := nullptr |}
  else ret this.

(** [~ProcessHandle()] *)
Definition dtor (this : t) : M OSState unit :=
  close this ;;; ret tt.

(** [operator=(ProcessHandle&& other)] for [this != &other]: both
    objects afterwards. *)
Definition move_assign (this other : t) : M OSState (t * t) :=
  this' <- close this ;;
  ret ({| handle_ := handle_ other |}, {| handle_ := nullptr |}).

(** [operator=(ProcessHandle&& other)] for [this == &other]. *)
Definition move_assign_self (this : t) : M OSState t := ret this.

(** [~optional<ProcessHandle>()] *)
Definition optional_dtor (o : option t) : M OSState unit :=
  match o with
  | Some this => dtor this
  | None => ret tt
  end.

(** [open(pid)].  [return ProcessHandle(handle);] builds a temporary,
    moves it into the optional and destroys the temporary. *)
Definition open (pid : DWORD) : M OSState (option t) :=
  handle <- call_OpenProcess minimal_access false pid ;;
  if handle =? nullptr
  then ret None
  else
    let temporary := ctor handle in
    let '(value, temporary') := move_ctor temporary in
    dtor temporary' ;;; ret (Some value).
End WithApi.

End ProcessHandle.

(** ** ProcessQueryService.cpp *)

Definition PID_VECT_SIZE : N := 1024.

(** What [EnumProcesses] leaves in a buffer: the identifiers it stored,
    followed by the untouched rest. *)
Definition overwrite (written buffer : list DWORD) : list DWORD :=
  firstn (length buffer) written ++ skipn (length written) buffer.

(** [v.size()] and [v.resize(n)] of a [std::vector<DWORD>]. *)
Definition size {A} (v : list A) : size_t := N.of_nat (length v).
Definition resize (n : size_t) (v : list DWORD) : list DWORD :=
  firstn (N.to_nat n) v ++ repeat 0 (N.to_nat n - length v).

Section ProcessQueryService.
Context {OSState : Type} (api : Win32 OSState).

Definition call_EnumProcesses (pids : list DWORD)
  : M OSState (bool * list DWORD * DWORD) :=
  fun w =>
    let cb := to_DWORD (size pids * sizeof_DWORD) in
    let '(reply, st) := EnumProcesses api cb (w_os w) in
    (Returned (enum_ok reply, overwrite (enum_written reply) pids, enum_bytes reply),
     record_call (CallEnumProcesses cb) st w).

Definition call_GetLastError : M OSState DWORD :=
  fun w => (Returned (GetLastError api (w_os w)),
            record_call CallGetLastError (w_os w) w).

Definition call_GetProcessMemoryInfo (h : HANDLE)
  : M OSState (option PROCESS_MEMORY_COUNTERS_EX) :=
  fun w =>
    let '(r, st) := GetProcessMemoryInfo api h (w_os w) in
    (Returned r, record_call (CallGetProcessMemoryInfo h) st w).

Definition call_GetModuleBaseNameW (h : HANDLE) (nSize : DWORD)
  : M OSState (option (list wchar_t)) :=
  fun w =>
    let '(r, st) := GetModuleBaseNameW api h nSize (w_os w) in
    (Returned r, record_call (CallGetModuleBaseNameW h nSize) st w).

Definition call_QueryFullProcessImageNameW (h : HANDLE) (flags size : DWORD)
  : M OSState (option (list wchar_t)) :=
  fun w =>
    let '(r, st) := QueryFullProcessImageNameW api h flags size (w_os w) in
    (Returned r, record_call (CallQueryFullProcessImageNameW h flags size) st w).

(** The [while (true)] loop of [enumerateProcessIds]; one unit of fuel per
    iteration. *)
Fixpoint enumerate_loop (fuel : nat) (pids : list DWORD) : M OSState (list DWORD) :=
  match fuel with
  | O => out_of_fuel
  | S fuel' =>
      r <- call_EnumProcesses pids ;;
      let '(ok, pids, bytesReturned) := r in
      if negb ok
      then
        errorCode <- call_GetLastError ;;
        throw (Win32Error "EnumProcesses failed." errorCode)
      else
        let count := bytesReturned / sizeof_DWORD in
        if count <? size pids
        then ret (resize count pids)
        else enumerate_loop fuel' (resize (size pids * 2) pids)
  end.

Definition enumerateProcessIds (fuel : nat) : M OSState (list DWORD) :=
  enumerate_loop fuel (repeat 0 (N.to_nat PID_VECT_SIZE)).

Definition tryGetProcessName (process : HANDLE) : M OSState wstring :=
  r <- call_GetModuleBaseNameW process MAX_PATH ;;
  match r with
  | Some buffer => ret (wstring_of_c_str buffer)
  | None =>
      r' <- call_QueryFullProcessImageNameW process 0 MAX_PATH ;;
      match r' with
      | Some buffer => ret (wstring_of_c_str buffer)
      | None => ret (L "<unknown>")
      end
  end.

Definition queryProcess (pid : DWORD) : M OSState (option ProcessInfo) :=
  if pid =? 0
  then ret None
  else
    handleOpt <- ProcessHandle.open api pid ;;
    scope_exit
      (match handleOpt with
       | None => ret None
       | Some handle =>
           r <- call_GetProcessMemoryInfo (ProcessHandle.get handle) ;;
           match r with
           | None => ret None
           | Some pmc =>
               processName <- tryGetProcessName (ProcessHandle.get handle) ;;
               ret (Some {| pid := pid;
                            name := processName;
                            workingSetBytes := WorkingSetSize pmc;
                            privateBytes := PrivateUsage pmc |})
           end
       end)
      (ProcessHandle.optional_dtor api handleOpt).

Definition collectProcesses (fuel : nat) : M OSState (list ProcessInfo) :=
  pids <- enumerateProcessIds fuel ;;
  for_each pids []
    (fun result pid =>
       info <- queryProcess pid ;;
       match info with
       | Some info => ret (result ++ [info])
       | None => ret result
       end).
End ProcessQueryService.

(** ** ProcessMemorySniffer.cpp *)

Definition MAX_NAME_LEN : N := 28.

Definition space : wchar_t := 32.
Definition newline : wstring := [10].
Definition newline_narrow : string := String "010"%char EmptyString.

(** [s.substr(pos, n)] for [pos <= s.size()]. *)
Definition substr (pos n : size_t) (s : wstring) : wstring :=
  firstn (N.to_nat n) (skipn (N.to_nat pos) s).

(** [std::left << std::setw(w) << s] *)
Definition put_left (w : N) (s : wstring) : wstring :=
  s ++ repeat space (N.to_nat w - length s).

(** The comparison handed to [std::sort]. *)
Definition by_working_set (a b : ProcessInfo) : bool :=
  workingSetBytes b <? workingSetBytes a.

(** The name column of a row: lines 63 to 68 of the loop body. *)
Definition displayName (p : ProcessInfo) : wstring :=
  let displayName := name p in
  if MAX_NAME_LEN <? size displayName
  then substr 0 (MAX_NAME_LEN - 1) displayName ++ L "..."
  else displayName.

(** The indices [0, 1, ..., n - 1] a counting [for] loop visits. *)
Definition indices (n : size_t) : list size_t :=
  map N.of_nat (seq 0 (N.to_nat n)).

Section ProcessMemorySniffer.
Context {OSState : Type} (api : Win32 OSState).

(** [std::sort] on a vector of records.  The standard fixes its result
    only up to the order of equivalent elements. *)
Variable std_sort :
  (ProcessInfo -> ProcessInfo -> bool) -> list ProcessInfo -> list ProcessInfo.

(** The text [operator<<] writes for
    [static_cast<double>(bytes) / (1024.0 * 1024.0)] with [std::ios::fixed]
    and [std::setprecision(2)]. *)
Variable put_megabytes : Bytes -> wstring.

Definition table_header (topN : size_t) : wstring :=
  L "Top " ++ to_wstring topN
    ++ L " processes by working set (physical ram):" ++ newline ++ newline
    ++ put_left 8 (L "PID")
    ++ put_left 30 (L "Process")
    ++ put_left 16 (L "WorkingSet (MB)")
    ++ put_left 16 (L "Private (MB)")
    ++ newline.

(** The text of one pass through the loop body. *)
Definition table_row (p : ProcessInfo) : wstring :=
  put_left 8 (to_wstring (pid p))
    ++ put_left 30 (displayName p)
    ++ put_left 16 (put_megabytes (workingSetBytes p))
    ++ put_left 16 (put_megabytes (privateBytes p))
    ++ newline.

(** [processes] is a reference to the caller's vector; the function
    returns that vector as it leaves it. *)
Definition printTopByWorkingSet (processes : list ProcessInfo) (topN : size_t)
  : M OSState (list ProcessInfo) :=
  match processes with
  | [] =>
      wcout_put (L "No processes available." ++ newline) ;;;
      ret processes
  | _ :: _ =>
      let sorted := processes in
      let sorted := std_sort by_working_set sorted in
      let topN := N.min topN (size sorted) in
      wcout_put (table_header topN) ;;;
      for_each (indices topN) tt
        (fun _ i =>
           let p := nth (N.to_nat i) sorted ProcessInfo_default in
           wcout_put (table_row p)) ;;;
      ret processes
  end.

Definition runSniffer (fuel : nat) (topN : size_t) : M OSState N :=
  try_catch
    (processes <- collectProcesses api fuel ;;
     printTopByWorkingSet processes topN ;;;
     ret EXIT_SUCCESS)
    (fun ex =>
       match ex with
       | Win32Error_exn _ _ =>
           cerr_put ("Win32 error: " ++ what_of ex ++ newline_narrow)%string ;;;
           ret EXIT_FAILURE
       | std_exception _ =>
           cerr_put ("Error: " ++ what_of ex ++ newline_narrow)%string ;;;
           ret EXIT_FAILURE
       end).

(** main.cpp *)
Definition wmain (fuel : nat) : M OSState N := runSniffer fuel 10.
End ProcessMemorySniffer.

(** ** Instances used to run the program on examples *)

(** A sort that meets the requirements of [std::sort]. *)
Fixpoint insert_sorted {A} (before : A -> A -> bool) (x : A) (l : list A) : list A :=
  match l with
  | [] => [x]
  | y :: l' => if before x y then x :: y :: l' else y :: insert_sorted before x l'
  end.

Fixpoint insertion_sort {A} (before : A -> A -> bool) (l : list A) : list A :=
  match l with
  | [] => []
  | x :: l' => insert_sorted before x (insertion_sort before l')
  end.

(** Megabytes with two decimals, rounded to nearest with ties to even; it
    is the text of the double for byte counts below [2 ^ 53]. *)
Definition two_digits (n : N) : wstring :=
  to_wstring (n / 10) ++ to_wstring (n mod 10).

Definition fixed2_megabytes (bytes : Bytes) : wstring :=
  let q := bytes * 100 / 2 ^ 20 in
  let r := (bytes * 100) mod 2 ^ 20 in
  let h := if (2 ^ 19 <? r) || ((r =? 2 ^ 19) && N.odd q) then q + 1 else q in
  to_wstring (h / 100) ++ L "." ++ two_digits (h mod 100).

(** What [std::sort] guarantees for a comparison that is a strict weak
    ordering: a rearrangement of the input in which no element is ordered
    strictly before an earlier one. *)
Definition strict_weak_order {A} (before : A -> A -> bool) : Prop :=
  (forall x y, before x y = true -> before y x = false) /\
  (forall x y z, before x y = false -> before y z = false -> before x z = false).

Definition sort_conforms
    (sort : (ProcessInfo -> ProcessInfo -> bool) -> list ProcessInfo -> list ProcessInfo)
  : Prop :=
  forall before l,
    strict_weak_order before ->
    Permutation l (sort before l) /\
    StronglySorted (fun x y => before y x = false) (sort before l).

(** ** A stubbed operating system

    The state is the last-error value.  [stub_ids] is the identifier list
    behind [EnumProcesses]; the per-process answers are tables. *)

Record Stub := {
  stub_ids : option (list DWORD);
  stub_enum_error : DWORD;
  stub_open : DWORD -> HANDLE;
  stub_memory : HANDLE -> option PROCESS_MEMORY_COUNTERS_EX;
  stub_base_name : HANDLE -> option (list wchar_t);
  stub_image_name : HANDLE -> option (list wchar_t)
}.

Definition stub_api (s : Stub) : Win32 DWORD := {|
  EnumProcesses := fun cb st =>
    match stub_ids s with
    | None =>
        ({| enum_ok := false; enum_written := []; enum_bytes := 0 |},
         stub_enum_error s)
    | Some ids =>
        let stored := firstn (N.to_nat (cb / sizeof_DWORD)) ids in
        ({| enum_ok := true; enum_written := stored;
            enum_bytes := size stored * sizeof_DWORD |}, st)
    end;
  GetLastError := fun st => st;
  OpenProcess := fun _ _ processId st => (stub_open s processId, st);
  CloseHandle := fun _ st => st;
  GetProcessMemoryInfo := fun h st => (stub_memory s h, st);
  GetModuleBaseNameW := fun h _ st => (stub_base_name s h, st);
  QueryFullProcessImageNameW := fun h _ _ st => (stub_image_name s h, st)
|}.

Definition initial_world : World DWORD :=
  {| w_os := 0; w_calls := []; w_wcout := []; w_cerr := EmptyString |}.

(** ** The course of the enumeration loop

    The loop asks with capacities 1024, 2048, 4096, ...; the state of the
    operating system before each request and the reply to it follow from the
    primitive alone. *)

Section Course.
Context {OSState : Type} (api : Win32 OSState).

Definition capacity (j : nat) : N := PID_VECT_SIZE * 2 ^ N.of_nat j.

Definition request (j : nat) : DWORD := to_DWORD (capacity j * sizeof_DWORD).

Fixpoint os_before (j : nat) (st : OSState) : OSState :=
  match j with
  | O => st
  | S j' => snd (EnumProcesses api (request j') (os_before j' st))
  end.

Definition reply_at (j : nat) (st : OSState) : EnumReply :=
  fst (EnumProcesses api (request j) (os_before j st)).

Definition count_at (j : nat) (st : OSState) : N :=
  enum_bytes (reply_at j st) / sizeof_DWORD.

Fixpoint buffer_before (j : nat) (st : OSState) : list DWORD :=
  match j with
  | O => repeat 0 (N.to_nat PID_VECT_SIZE)
  | S j' =>
      let pids := overwrite (enum_written (reply_at j' st)) (buffer_before j' st) in
      resize (size pids * 2) pids
  end.

(** The reply to request [j] succeeds and fills the buffer. *)
Definition buffer_full (j : nat) (st : OSState) : Prop :=
  enum_ok (reply_at j st) = true /\ capacity j <= count_at j st.

Definition enum_calls (from n : nat) : list Call :=
  map (fun i => CallEnumProcesses (request i)) (seq from n).

(** The collection pass in the words of the specification: the
    enumerator once, then the records of the identifiers the inspector
    accepts, in order. *)
Fixpoint filter_map_M {A B} (f : A -> M OSState (option B)) (l : list A)
  : M OSState (list B) :=
  match l with
  | [] => ret []
  | a :: l' =>
      o <- f a ;;
      rest <- filter_map_M f l' ;;
      ret (match o with Some b => b :: rest | None => rest end)
  end.

Definition collectProcesses_spec (fuel : nat) : M OSState (list ProcessInfo) :=
  pids <- enumerateProcessIds api fuel ;;
  filter_map_M (queryProcess api) pids.

(** The documented behaviour of the two name queries: a successful call
    leaves a non-empty string in the buffer. *)
Definition names_nonempty : Prop :=
  (forall h n st buffer,
      fst (GetModuleBaseNameW api h n st) = Some buffer ->
      wstring_of_c_str buffer <> []) /\
  (forall h f n st buffer,
      fst (QueryFullProcessImageNameW api h f n st) = Some buffer ->
      wstring_of_c_str buffer <> []).
End Course.

Definition set_wcout {OSState} (out : wstring) (w : World OSState) : World OSState :=
  {| w_os := w_os w; w_calls := w_calls w; w_wcout := out; w_cerr := w_cerr w |}.

Definition set_cerr {OSState} (err : string) (w : World OSState) : World OSState :=
  {| w_os := w_os w; w_calls := w_calls w; w_wcout := w_wcout w; w_cerr := err |}.

Definition add_calls {OSState} (cs : list Call) (st : OSState) (w : World OSState)
  : World OSState :=
  {| w_os := st; w_calls := w_calls w ++ cs; w_wcout := w_wcout w; w_cerr := w_cerr w |}.

(** The text one call of [printTopByWorkingSet] adds to the output
    stream, read off its body. *)
Definition report
    (std_sort : (ProcessInfo -> ProcessInfo -> bool) -> list ProcessInfo -> list ProcessInfo)
    (put_megabytes : Bytes -> wstring)
    (processes : list ProcessInfo) (topN : size_t) : wstring :=
  match processes with
  | [] => L "No processes available." ++ newline
  | _ :: _ =>
      let sorted := std_sort by_working_set processes in
      let shown := N.min topN (size sorted) in
      table_header shown
        ++ concat (map (table_row put_megabytes) (firstn (N.to_nat shown) sorted))
  end.

(** ** Example systems *)

(** 5000 live processes nobody may open: the buffer has to grow three
    times (1024, 2048, 4096, 8192). *)
Definition stub_5000 : Stub := {|
  stub_ids := Some (map N.of_nat (seq 1 5000));
  stub_enum_error := 0;
  stub_open := fun _ => nullptr;
  stub_memory := fun _ => None;
  stub_base_name := fun _ => None;
  stub_image_name := fun _ => None
|}.

(** [EnumProcesses] fails with ERROR_ACCESS_DENIED. *)
Definition stub_enum_fails : Stub := {|
  stub_ids := None;
  stub_enum_error := 5;
  stub_open := fun _ => nullptr;
  stub_memory := fun _ => None;
  stub_base_name := fun _ => None;
  stub_image_name := fun _ => None
|}.

(** Identifiers 0, 100 and 200; only 200 can be opened. *)
Definition stub_app : Stub := {|
  stub_ids := Some [0; 100; 200];
  stub_enum_error := 0;
  stub_open := fun processId => if processId =? 200 then 4660 else nullptr;
  stub_memory := fun h =>
    if h =? 4660
    then Some {| WorkingSetSize := 52428800; PrivateUsage := 20971520 |}
    else None;
  stub_base_name := fun h => if h =? 4660 then Some (L "app.exe") else None;
  stub_image_name := fun _ => None
|}.

(** Two processes of 10 MiB and 50 MiB; the second has no base name, the
    first no name at all. *)
Definition stub_two : Stub := {|
  stub_ids := Some [4; 8];
  stub_enum_error := 0;
  stub_open := fun processId => processId * 16;
  stub_memory := fun h =>
    if h =? 64
    then Some {| WorkingSetSize := 10485760; PrivateUsage := 1048576 |}
    else Some {| WorkingSetSize := 52428800; PrivateUsage := 2097152 |};
  stub_base_name := fun _ => None;
  stub_image_name := fun h =>
    if h =? 128 then Some (L "C:\Tools\big.exe") else None
|}.

(** A record whose name has 29 characters. *)
Definition long_named : ProcessInfo := {|
  pid := 4242;
  name := L "ProcessMemorySnifferAgent.exe";
  workingSetBytes := 1048576;
  privateBytes := 1048576
|}.

(** ** Further systems and observers *)

(** A primitive that fills whatever buffer it is offered: it stores
    [cb / 4] identifiers and reports [cb] bytes. *)
Definition stub_always_full : Win32 DWORD := {|
  EnumProcesses := fun cb st =>
    ({| enum_ok := true;
        enum_written := repeat 7 (N.to_nat (cb / sizeof_DWORD));
        enum_bytes := cb |}, st);
  GetLastError := fun st => st;
  OpenProcess := fun _ _ _ st => (nullptr, st);
  CloseHandle := fun _ st => st;
  GetProcessMemoryInfo := fun _ st => (None, st);
  GetModuleBaseNameW := fun _ _ st => (None, st);
  QueryFullProcessImageNameW := fun _ _ _ st => (None, st)
|}.

(** One process that can be opened but not queried. *)
Definition stub_protected : Stub := {|
  stub_ids := Some [612];
  stub_enum_error := 0;
  stub_open := fun _ => 77;
  stub_memory := fun _ => None;
  stub_base_name := fun _ => Some (L "lsass.exe");
  stub_image_name := fun _ => None
|}.

(** The handles in use, kept beside the state of a system: [OpenProcess]
    adds the handle it answers, [CloseHandle] takes one occurrence away. *)
Fixpoint remove_one (h : HANDLE) (hs : list HANDLE) : list HANDLE :=
  match hs with
  | [] => []
  | x :: rest => if x =? h then rest else x :: remove_one h rest
  end.

Definition tracked {OSState : Type} (api : Win32 OSState)
  : Win32 (OSState * list HANDLE) := {|
  EnumProcesses := fun cb s =>
    let '(r, st) := EnumProcesses api cb (fst s) in (r, (st, snd s));
  GetLastError := fun s => GetLastError api (fst s);
  OpenProcess := fun access inherit processId s =>
    let '(h, st) := OpenProcess api access inherit processId (fst s) in
    (h, (st, if h =? nullptr then snd s else h :: snd s));
  CloseHandle := fun h s => (CloseHandle api h (fst s), remove_one h (snd s));
  GetProcessMemoryInfo := fun h s =>
    let '(r, st) := GetProcessMemoryInfo api h (fst s) in (r, (st, snd s));
  GetModuleBaseNameW := fun h n s =>
    let '(r, st) := GetModuleBaseNameW api h n (fst s) in (r, (st, snd s));
  QueryFullProcessImageNameW := fun h f n s =>
    let '(r, st) := QueryFullProcessImageNameW api h f n (fst s) in (r, (st, snd s))
|}.

Definition handles_in_use {OSState : Type} (w : World (OSState * list HANDLE))
  : list HANDLE :=
  snd (w_os w).

(** [2 ^ 29] live processes nobody may open. *)
Definition huge_ids : list DWORD := repeat 7 (N.to_nat (2 ^ 29)).

Definition stub_huge : Stub := {|
  stub_ids := Some huge_ids;
  stub_enum_error := 0;
  stub_open := fun _ => nullptr;
  stub_memory := fun _ => None;
  stub_base_name := fun _ => None;
  stub_image_name := fun _ => None
|}.

Definition is_OpenProcess (c : Call) : bool :=
  match c with CallOpenProcess _ _ _ => true | _ => false end.

(** [l1] is [l2] with some elements left out. *)
Inductive Subsequence {A : Type} : list A -> list A -> Prop :=
| Subsequence_nil : Subsequence [] []
| Subsequence_skip (x : A) (l1 l2 : list A) :
    Subsequence l1 l2 -> Subsequence l1 (x :: l2)
| Subsequence_take (x : A) (l1 l2 : list A) :
    Subsequence l1 l2 -> Subsequence (x :: l1) (x :: l2).

(** The calls [close()] makes on a wrapper holding [h]. *)
Definition closes (h : HANDLE) : list Call :=
  if h =? nullptr then [] else [CallCloseHandle h].

Unset Implicit Arguments.

(** * Properties *)

(** ** Vectors *)

Lemma overwrite_length (written buffer : list DWORD) :
  length (overwrite written buffer) = length buffer.
Proof.
  unfold overwrite.
  rewrite length_app, length_firstn, length_skipn. lia.
Qed.

Lemma resize_length (n : size_t) (v : list DWORD) :
  length (resize n v) = N.to_nat n.
Proof.
  unfold resize.
  rewrite length_app, length_firstn, repeat_length. lia.
Qed.

Lemma resize_shrink (n : size_t) (v : list DWORD) :
  n <= size v -> resize n v = firstn (N.to_nat n) v.
Proof.
  unfold resize, size. intros H.
  replace (N.to_nat n - length v)%nat with 0%nat by lia.
  simpl. apply app_nil_r.
Qed.

Lemma overwrite_prefix (written buffer : list DWORD) :
  (length written <= length buffer)%nat ->
  firstn (length written) (overwrite written buffer) = written.
Proof.
  intros H. unfold overwrite.
  rewrite (@firstn_all2 _ (length buffer) written H).
  rewrite firstn_app, firstn_all, Nat.sub_diag. simpl. apply app_nil_r.
Qed.

Lemma capacity_succ (j : nat) : capacity (S j) = capacity j * 2.
Proof.
  unfold capacity. rewrite Nat2N.inj_succ, N.pow_succ_r'. lia.
Qed.

Lemma capacity_0 : capacity 0 = 1024.
Proof. reflexivity. Qed.

Section CourseFacts.
Context {OSState : Type} (api : Win32 OSState).

Lemma buffer_before_size (j : nat) (st : OSState) :
  size (buffer_before api j st) = capacity j.
Proof.
  induction j as [|j IH].
  - unfold size. cbn [buffer_before]. rewrite repeat_length.
    rewrite N2Nat.id. reflexivity.
  - cbn [buffer_before]. cbv zeta.
    unfold size at 1. rewrite resize_length, N2Nat.id.
    unfold size at 1. rewrite overwrite_length.
    fold (size (buffer_before api j st)). rewrite IH.
    symmetry. apply capacity_succ.
Qed.

(** One pass through the body of the loop. *)
Lemma enumerate_loop_step (fuel j : nat) (st : OSState) (w : World OSState) :
  w_os w = os_before api j st ->
  enumerate_loop api (S fuel) (buffer_before api j st) w =
    let w1 := record_call (CallEnumProcesses (request j)) (os_before api (S j) st) w in
    if negb (enum_ok (reply_at api j st))
    then (Thrown (Win32Error "EnumProcesses failed."
                    (GetLastError api (os_before api (S j) st))),
          record_call CallGetLastError (os_before api (S j) st) w1)
    else if count_at api j st <? capacity j
         then (Returned (resize (count_at api j st)
                           (overwrite (enum_written (reply_at api j st))
                              (buffer_before api j st))), w1)
         else enumerate_loop api fuel (buffer_before api (S j) st) w1.
Proof.
  intros Hos.
  cbn [enumerate_loop]. unfold bind at 1. unfold call_EnumProcesses.
  rewrite buffer_before_size. fold (request j). rewrite Hos.
  cbn [os_before buffer_before]. unfold count_at, reply_at.
  destruct (EnumProcesses api (request j) (os_before api j st)) as [reply st'] eqn:E.
  cbn [fst snd]. cbv zeta.
  destruct (enum_ok reply); cbn [negb].
  - unfold size at 1. rewrite overwrite_length.
    fold (size (buffer_before api j st)). rewrite buffer_before_size.
    destruct (enum_bytes reply / sizeof_DWORD <? capacity j); reflexivity.
  - reflexivity.
Qed.
Lemma add_calls_record (c : Call) (cs : list Call) (st st' : OSState) (w : World OSState) :
  add_calls cs st' (record_call c st w) = add_calls (c :: cs) st' w.
Proof.
  unfold add_calls, record_call. cbn [w_calls w_wcout w_cerr].
  rewrite <- app_assoc. reflexivity.
Qed.

(** The loop returns once a reply leaves room in the buffer, after [k]
    replies that filled it. *)
Lemma enumerate_loop_converges (k : nat) :
  forall (j fuel : nat) (st : OSState) (w : World OSState),
    w_os w = os_before api j st ->
    (forall i, (j <= i < j + k)%nat -> buffer_full api i st) ->
    enum_ok (reply_at api (j + k) st) = true ->
    count_at api (j + k) st < capacity (j + k) ->
    (k < fuel)%nat ->
    enumerate_loop api fuel (buffer_before api j st) w =
      (Returned (resize (count_at api (j + k) st)
                   (overwrite (enum_written (reply_at api (j + k) st))
                      (buffer_before api (j + k) st))),
       add_calls (enum_calls j (S k)) (os_before api (S (j + k)) st) w).
Proof.
  induction k as [|k IH]; intros j fuel st w Hos Hfull Hok Hfit Hfuel;
    (destruct fuel as [|fuel]; [lia|]);
    rewrite enumerate_loop_step by exact Hos; cbv zeta.
  - rewrite Nat.add_0_r in *. rewrite Hok. cbn [negb].
    apply N.ltb_lt in Hfit. rewrite Hfit. reflexivity.
  - destruct (Hfull j ltac:(lia)) as [Hokj Hgej].
    rewrite Hokj. cbn [negb].
    apply N.ltb_ge in Hgej. rewrite Hgej.
    replace (j + S k)%nat with (S j + k)%nat in * by lia.
    rewrite (IH (S j) fuel st); try assumption; try lia.
    + rewrite add_calls_record. reflexivity.
    + reflexivity.
    + intros i Hi. apply Hfull. lia.
Qed.

(** The loop throws once a request fails, after [k] replies that filled
    the buffer. *)
Lemma enumerate_loop_fails (k : nat) :
  forall (j fuel : nat) (st : OSState) (w : World OSState),
    w_os w = os_before api j st ->
    (forall i, (j <= i < j + k)%nat -> buffer_full api i st) ->
    enum_ok (reply_at api (j + k) st) = false ->
    (k < fuel)%nat ->
    enumerate_loop api fuel (buffer_before api j st) w =
      (Thrown (Win32Error "EnumProcesses failed."
                 (GetLastError api (os_before api (S (j + k)) st))),
       add_calls (enum_calls j (S k) ++ [CallGetLastError])
         (os_before api (S (j + k)) st) w).
Proof.
  induction k as [|k IH]; intros j fuel st w Hos Hfull Hok Hfuel;
    (destruct fuel as [|fuel]; [lia|]);
    rewrite enumerate_loop_step by exact Hos; cbv zeta.
  - rewrite Nat.add_0_r in *. rewrite Hok. cbn [negb].
    unfold add_calls, record_call. cbn [w_calls w_wcout w_cerr w_os].
    rewrite <- app_assoc. reflexivity.
  - destruct (Hfull j ltac:(lia)) as [Hokj Hgej].
    rewrite Hokj. cbn [negb].
    apply N.ltb_ge in Hgej. rewrite Hgej.
    replace (j + S k)%nat with (S j + k)%nat in * by lia.
    rewrite (IH (S j) fuel st); try assumption; try lia.
    + rewrite add_calls_record. reflexivity.
    + reflexivity.
    + intros i Hi. apply Hfull. lia.
Qed.

(** As long as every reply fills the buffer the loop goes on asking, with
    a capacity that keeps doubling. *)
Lemma enumerate_loop_keeps_growing (fuel : nat) :
  forall (j : nat) (st : OSState) (w : World OSState),
    w_os w = os_before api j st ->
    (forall i, (j <= i < j + fuel)%nat -> buffer_full api i st) ->
    enumerate_loop api fuel (buffer_before api j st) w =
      (OutOfFuel, add_calls (enum_calls j fuel) (os_before api (j + fuel) st) w).
Proof.
  induction fuel as [|fuel IH]; intros j st w Hos Hfull.
  - cbn [enumerate_loop]. unfold out_of_fuel, add_calls, enum_calls.
    cbn [seq map]. rewrite app_nil_r, Nat.add_0_r, <- Hos.
    destruct w; reflexivity.
  - rewrite enumerate_loop_step by exact Hos. cbv zeta.
    destruct (Hfull j ltac:(lia)) as [Hokj Hgej].
    rewrite Hokj. cbn [negb].
    apply N.ltb_ge in Hgej. rewrite Hgej.
    rewrite (IH (S j) st).
    + rewrite add_calls_record.
      replace (S j + fuel)%nat with (j + S fuel)%nat by lia. reflexivity.
    + reflexivity.
    + intros i Hi. apply Hfull. lia.
Qed.
End CourseFacts.

(** ** The enumerator *)

(** The course of the enumerator over any primitive.
    [enumerateProcessIds] starts with a buffer of 1024 entries and
    doubles it after every reply whose count reaches the capacity.  Whenever
    the primitive, after [k] such replies, reports a count strictly below the
    capacity [1024 * 2 ^ k], the loop terminates (any fuel above [k]
    suffices) and returns exactly that many identifiers: the front of the
    buffer, which is the list the primitive stored when it stored as many as
    it reported.  The calls made are the [k + 1] requests with capacities
    1024, 2048, ..., [1024 * 2 ^ k]. *)
Theorem enumerateProcessIds_doubles_until_fits
    {OSState : Type} (api : Win32 OSState)
    (k fuel : nat) (w : World OSState) :
  (forall i, (i < k)%nat -> buffer_full api i (w_os w)) ->
  enum_ok (reply_at api k (w_os w)) = true ->
  count_at api k (w_os w) < capacity k ->
  (k < fuel)%nat ->
  exists ids w',
    enumerateProcessIds api fuel w = (Returned ids, w') /\
    size ids = count_at api k (w_os w) /\
    ids = firstn (N.to_nat (count_at api k (w_os w)))
            (overwrite (enum_written (reply_at api k (w_os w)))
               (buffer_before api k (w_os w))) /\
    (size (enum_written (reply_at api k (w_os w))) = count_at api k (w_os w) ->
     ids = enum_written (reply_at api k (w_os w))) /\
    w_calls w' = w_calls w ++ enum_calls 0 (S k) /\
    capacity 0 = 1024 /\
    (forall j, capacity (S j) = capacity j * 2) /\
    (forall j, request j = to_DWORD (capacity j * sizeof_DWORD)).
Proof.
  intros Hfull Hok Hfit Hfuel.
  pose proof (@enumerate_loop_converges _ api k 0%nat fuel (w_os w) w eq_refl) as H.
  cbn [Nat.add] in H.
  specialize (H (fun i Hi => Hfull i (proj2 Hi)) Hok Hfit Hfuel).
  set (count := count_at api k (w_os w)) in *.
  set (written := enum_written (reply_at api k (w_os w))) in *.
  set (buffer := buffer_before api k (w_os w)) in *.
  assert (Hsize : size (overwrite written buffer) = capacity k).
  { unfold size. rewrite overwrite_length.
    apply (buffer_before_size api k (w_os w)). }
  assert (Hids : resize count (overwrite written buffer)
                 = firstn (N.to_nat count) (overwrite written buffer)).
  { apply resize_shrink. rewrite Hsize. lia. }
  eexists; eexists. split; [exact H|].
  split; [unfold size; rewrite resize_length; apply N2Nat.id|].
  split; [exact Hids|].
  split.
  { intros Hw. rewrite Hids.
    assert (Hlen : N.to_nat count = length written).
    { rewrite <- Hw. unfold size. rewrite Nat2N.id. reflexivity. }
    rewrite Hlen. apply overwrite_prefix.
    pose proof (buffer_before_size api k (w_os w)) as Hb.
    fold buffer in Hb. unfold size in Hb, Hw. lia. }
  split; [reflexivity|].
  split; [exact capacity_0|].
  split; [exact capacity_succ|].
  reflexivity.
Qed.

Lemma enumerateProcessIds_doubles_until_fits_witness :
  exists ids w',
    enumerateProcessIds (stub_api stub_5000) 4 initial_world = (Returned ids, w') /\
    size ids = 5000 /\
    w_calls w' = [CallEnumProcesses 4096; CallEnumProcesses 8192;
                  CallEnumProcesses 16384; CallEnumProcesses 32768].
Proof.
  destruct (@enumerateProcessIds_doubles_until_fits _ (stub_api stub_5000)
              3 4 initial_world) as (ids & w' & Hrun & Hsize & _ & _ & Hcalls & _).
  - intros i Hi.
    destruct i as [|[|[|i]]]; [| | |lia];
      (split; [vm_compute; reflexivity | vm_compute; discriminate]).
  - vm_compute. reflexivity.
  - vm_compute. reflexivity.
  - lia.
  - exists ids, w'. split; [exact Hrun|]. split; [|exact Hcalls].
    rewrite Hsize. vm_compute. reflexivity.
Defined.

(** C4.  When the enumeration primitive fails (after [k] replies that only
    filled the buffer), [enumerateProcessIds] throws a [Win32Error] whose
    code is the value of [GetLastError] after the failed call and whose
    message is the context string followed by that code;
    [collectProcesses] lets the same exception through, having inspected
    no process; [runSniffer] catches it, writes the one line
    ["Win32 error: " + what + newline] to the error stream, prints nothing
    to the output stream and returns [EXIT_FAILURE]. *)
Theorem enumeration_failure_is_fatal
    {OSState : Type} (api : Win32 OSState)
    (std_sort : (ProcessInfo -> ProcessInfo -> bool) -> list ProcessInfo -> list ProcessInfo)
    (put_megabytes : Bytes -> wstring)
    (k fuel : nat) (topN : size_t) (w : World OSState) :
  (forall i, (i < k)%nat -> buffer_full api i (w_os w)) ->
  enum_ok (reply_at api k (w_os w)) = false ->
  (k < fuel)%nat ->
  let errorCode := GetLastError api (os_before api (S k) (w_os w)) in
  let ex := Win32Error "EnumProcesses failed." errorCode in
  let w' := add_calls (enum_calls 0 (S k) ++ [CallGetLastError])
              (os_before api (S k) (w_os w)) w in
  enumerateProcessIds api fuel w = (Thrown ex, w') /\
  collectProcesses api fuel w = (Thrown ex, w') /\
  runSniffer api std_sort put_megabytes fuel topN w =
    (Returned EXIT_FAILURE,
     set_cerr (w_cerr w ++ ("Win32 error: " ++ what_of ex ++ newline_narrow))%string w') /\
  ex = Win32Error_exn
         ("EnumProcesses failed.(error " ++ to_string errorCode ++ ")")%string errorCode /\
  w_wcout w' = w_wcout w /\
  EXIT_FAILURE <> EXIT_SUCCESS.
Proof.
  intros Hfull Hfail Hfuel errorCode ex w'.
  assert (Henum : enumerateProcessIds api fuel w = (Thrown ex, w')).
  { unfold enumerateProcessIds.
    apply (@enumerate_loop_fails _ api k 0%nat fuel (w_os w) w eq_refl).
    - intros i Hi. apply Hfull. lia.
    - exact Hfail.
    - exact Hfuel. }
  assert (Hcollect : collectProcesses api fuel w = (Thrown ex, w')).
  { unfold collectProcesses, bind. rewrite Henum. reflexivity. }
  repeat split.
  - exact Henum.
  - exact Hcollect.
  - unfold runSniffer, try_catch, bind. rewrite Hcollect. reflexivity.
  - discriminate.
Qed.

Lemma enumeration_failure_is_fatal_witness :
  runSniffer (stub_api stub_enum_fails) (@insertion_sort _) fixed2_megabytes
    1 10 initial_world =
  (Returned EXIT_FAILURE,
   {| w_os := 5;
      w_calls := [CallEnumProcesses 4096; CallGetLastError];
      w_wcout := [];
      w_cerr := ("Win32 error: EnumProcesses failed.(error 5)" ++ newline_narrow)%string |}).
Proof.
  destruct (@enumeration_failure_is_fatal _ (stub_api stub_enum_fails)
              (@insertion_sort _) fixed2_megabytes 0 1 10 initial_world)
    as (_ & _ & Hrun & _).
  - intros i Hi. lia.
  - vm_compute. reflexivity.
  - lia.
  - rewrite Hrun. vm_compute. reflexivity.
Defined.

(** ** The inspector *)

Ltac unfold_inspector :=
  unfold queryProcess, tryGetProcessName,
    ProcessHandle.open, ProcessHandle.optional_dtor, ProcessHandle.dtor,
    ProcessHandle.close, ProcessHandle.move_ctor, ProcessHandle.ctor,
    ProcessHandle.get, ProcessHandle.call_OpenProcess,
    ProcessHandle.call_CloseHandle, call_GetProcessMemoryInfo,
    call_GetModuleBaseNameW, call_QueryFullProcessImageNameW,
    scope_exit, bind, ret;
  cbn [ProcessHandle.handle_].

Section Inspector.
Context {OSState : Type} (api : Win32 OSState).

Lemma open_run (pid : DWORD) (w : World OSState) :
  ProcessHandle.open api pid w =
    (Returned
       (let h := fst (OpenProcess api ProcessHandle.minimal_access false pid (w_os w)) in
        if h =? nullptr then None else Some (ProcessHandle.mk h)),
     record_call (CallOpenProcess ProcessHandle.minimal_access false pid)
       (snd (OpenProcess api ProcessHandle.minimal_access false pid (w_os w))) w).
Proof.
  unfold_inspector.
  destruct (OpenProcess api ProcessHandle.minimal_access false pid (w_os w)) as [h st].
  cbn [fst snd].
  destruct (h =? nullptr); reflexivity.
Qed.

(** [queryProcess] is [noexcept], and the embedding agrees. *)
Lemma queryProcess_returns (pid : DWORD) (w : World OSState) :
  exists r w', queryProcess api pid w = (Returned r, w').
Proof.
  unfold_inspector.
  destruct (pid =? 0); [eauto|].
  destruct (OpenProcess api ProcessHandle.minimal_access false pid (w_os w)) as [h st].
  destruct (h =? nullptr) eqn:Eh; cbn; [eauto|].
  rewrite Eh. cbn.
  destruct (GetProcessMemoryInfo api h st) as [[pmc|] st2]; cbn; [|eauto].
  destruct (GetModuleBaseNameW api h MAX_PATH st2) as [[buffer|] st3]; cbn; [eauto|].
  destruct (QueryFullProcessImageNameW api h 0 MAX_PATH st3) as [[buffer|] st4];
    cbn; eauto.
Qed.

(** The push_back loop computes the filter-map. *)
Lemma for_each_push_back {A B : Type} (f : A -> M OSState (option B)) (l : list A) :
  forall (acc : list B) (w : World OSState),
    for_each l acc
      (fun result a =>
         info <- f a ;;
         match info with
         | Some info => ret (result ++ [info])
         | None => ret result
         end) w
    = (rest <- filter_map_M f l ;; ret (acc ++ rest)) w.
Proof.
  induction l as [|a l IH]; intros acc w.
  - cbn [for_each filter_map_M]. unfold bind, ret. rewrite app_nil_r. reflexivity.
  - cbn [for_each filter_map_M].
    unfold bind at 1 2. unfold bind at 2 3.
    destruct (f a w) as [[[info|]| |] w1]; try reflexivity.
    + unfold ret at 1. rewrite IH. unfold bind, ret.
      destruct (filter_map_M f l w1) as [[rest| |] w2]; try reflexivity.
      rewrite <- app_assoc. reflexivity.
    + unfold ret at 1. rewrite IH. unfold bind, ret.
      destruct (filter_map_M f l w1) as [[rest| |] w2]; reflexivity.
Qed.

Lemma filter_map_M_queryProcess (pids : list DWORD) :
  forall w : World OSState,
  exists records w',
    filter_map_M (queryProcess api) pids w = (Returned records, w') /\
    (length records <= length pids)%nat.
Proof.
  induction pids as [|pid pids IH]; intros w.
  - exists [], w. split; [reflexivity|]. cbn. lia.
  - cbn [filter_map_M]. unfold bind.
    destruct (queryProcess_returns pid w) as (r & w1 & ->).
    destruct (IH w1) as (records & w2 & -> & Hlen).
    unfold ret. destruct r as [info|]; eexists; eexists;
      (split; [reflexivity|]); cbn [length]; lia.
Qed.
End Inspector.

(** C6.  [queryProcess] always returns (it never throws); for identifier 0
    it returns "unavailable" and leaves the world as it was; when
    [OpenProcess] answers the null handle it returns "unavailable" and the
    failed [OpenProcess] is the only call it has made: no memory-counter
    query, no name query, no [CloseHandle]. *)
Theorem queryProcess_unavailable
    {OSState : Type} (api : Win32 OSState) (pid : DWORD) (w : World OSState) :
  (exists r w', queryProcess api pid w = (Returned r, w')) /\
  (pid = 0 -> queryProcess api pid w = (Returned None, w)) /\
  (pid <> 0 ->
   fst (OpenProcess api ProcessHandle.minimal_access false pid (w_os w)) = nullptr ->
   queryProcess api pid w =
     (Returned None,
      record_call (CallOpenProcess ProcessHandle.minimal_access false pid)
        (snd (OpenProcess api ProcessHandle.minimal_access false pid (w_os w))) w)).
Proof.
  split; [|split].
  - apply queryProcess_returns.
  - intros ->. reflexivity.
  - intros Hpid Hnull.
    unfold queryProcess.
    apply N.eqb_neq in Hpid. rewrite Hpid.
    unfold bind. rewrite open_run. rewrite Hnull. reflexivity.
Qed.

Lemma queryProcess_unavailable_witness :
  queryProcess (stub_api stub_app) 0 initial_world = (Returned None, initial_world) /\
  queryProcess (stub_api stub_app) 100 initial_world =
    (Returned None,
     {| w_os := 0; w_calls := [CallOpenProcess 1040 false 100];
        w_wcout := []; w_cerr := EmptyString |}).
Proof.
  destruct (queryProcess_unavailable (stub_api stub_app) 0 initial_world)
    as (_ & Hzero & _).
  destruct (queryProcess_unavailable (stub_api stub_app) 100 initial_world)
    as (_ & _ & Hdenied).
  split.
  - apply Hzero. reflexivity.
  - rewrite Hdenied.
    + reflexivity.
    + discriminate.
    + reflexivity.
Defined.

(** C7.  [tryGetProcessName] always returns.  It asks for the module base
    name first; if that call succeeds its string is the result and the
    image path is not asked for; if it fails the full image path is asked
    for and, on success, is the result; the placeholder ["<unknown>"] is the
    result when both calls have failed.  The result is never empty, given
    that a successful name query leaves a non-empty string.  A failed name
    resolution does not fail the inspection: once the handle is open and the
    memory counters are read, [queryProcess] returns a record carrying the
    resolved name (the placeholder included), the identifier and the two
    raw counters. *)
Theorem tryGetProcessName_two_tier {OSState : Type} (api : Win32 OSState) :
  (forall (process : HANDLE) (w : World OSState),
      let base := GetModuleBaseNameW api process MAX_PATH (w_os w) in
      let full := QueryFullProcessImageNameW api process 0 MAX_PATH (snd base) in
      exists processName w',
        tryGetProcessName api process w = (Returned processName, w') /\
        match fst base with
        | Some buffer =>
            processName = wstring_of_c_str buffer /\
            w' = add_calls [CallGetModuleBaseNameW process MAX_PATH] (snd base) w
        | None =>
            w' = add_calls [CallGetModuleBaseNameW process MAX_PATH;
                            CallQueryFullProcessImageNameW process 0 MAX_PATH]
                   (snd full) w /\
            match fst full with
            | Some buffer => processName = wstring_of_c_str buffer
            | None => processName = L "<unknown>"
            end
        end /\
        (names_nonempty api -> processName <> [])) /\
  (forall (pid : DWORD) (w : World OSState) (pmc : PROCESS_MEMORY_COUNTERS_EX),
      pid <> 0 ->
      let opened := OpenProcess api ProcessHandle.minimal_access false pid (w_os w) in
      let handle := fst opened in
      let queried := GetProcessMemoryInfo api handle (snd opened) in
      handle <> nullptr ->
      fst queried = Some pmc ->
      exists processName w',
        tryGetProcessName api handle
          (add_calls [CallOpenProcess ProcessHandle.minimal_access false pid;
                      CallGetProcessMemoryInfo handle] (snd queried) w)
        = (Returned processName, w') /\
        queryProcess api pid w =
          (Returned (Some {| pid := pid;
                             name := processName;
                             workingSetBytes := WorkingSetSize pmc;
                             privateBytes := PrivateUsage pmc |}),
           add_calls [CallCloseHandle handle] (CloseHandle api handle (w_os w')) w')).
Proof.
  split.
  - intros process w base full. subst base full.
    unfold_inspector.
    destruct (GetModuleBaseNameW api process MAX_PATH (w_os w))
      as [[buffer|] st1] eqn:Ebase; cbn [fst snd w_os record_call].
    + eexists; eexists. split; [reflexivity|]. split; [split; reflexivity|].
      intros [Hbase _]. apply (Hbase process MAX_PATH (w_os w)).
      rewrite Ebase. reflexivity.
    + destruct (QueryFullProcessImageNameW api process 0 MAX_PATH st1)
        as [[buffer|] st2] eqn:Efull; cbn [fst snd].
      * eexists; eexists. split; [reflexivity|].
        split; [split; [|reflexivity]|].
        -- unfold add_calls, record_call. cbn. rewrite <- app_assoc. reflexivity.
        -- intros [_ Hfull]. apply (Hfull process 0 MAX_PATH st1).
           rewrite Efull. reflexivity.
      * eexists; eexists. split; [reflexivity|].
        split; [split; [|reflexivity]|].
        -- unfold add_calls, record_call. cbn. rewrite <- app_assoc. reflexivity.
        -- intros _. discriminate.
  - intros pid w pmc Hpid opened handle queried Hopen Hquery.
    subst handle queried opened.
    unfold_inspector.
    apply N.eqb_neq in Hpid. rewrite Hpid.
    destruct (OpenProcess api ProcessHandle.minimal_access false pid (w_os w))
      as [h st1]. cbn [fst snd] in *.
    apply N.eqb_neq in Hopen. rewrite Hopen. cbn.
    destruct (GetProcessMemoryInfo api h st1) as [r st2]. cbn [fst snd] in *.
    subst r. cbn. rewrite Hopen. cbn.
    unfold add_calls, record_call. cbn. rewrite <- !app_assoc. cbn.
    destruct (GetModuleBaseNameW api h MAX_PATH st2) as [[buffer|] st3]; cbn.
    + eexists; eexists. split; [reflexivity|]. reflexivity.
    + destruct (QueryFullProcessImageNameW api h 0 MAX_PATH st3) as [[buffer|] st4];
        cbn; (eexists; eexists; split; [reflexivity|]; reflexivity).
Qed.

Lemma stub_two_names_nonempty : names_nonempty (stub_api stub_two).
Proof.
  split.
  - intros h n st buffer H. cbn in H. discriminate.
  - intros h f n st buffer H. cbn in H.
    destruct (h =? 128); [|discriminate].
    injection H as <-. discriminate.
Qed.

Lemma tryGetProcessName_two_tier_witness :
  (exists w',
      tryGetProcessName (stub_api stub_two) 128 initial_world
      = (Returned (L "C:\Tools\big.exe"), w')) /\
  L "C:\Tools\big.exe" <> [] /\
  (exists w',
      queryProcess (stub_api stub_two) 4 initial_world
      = (Returned (Some {| pid := 4; name := L "<unknown>";
                           workingSetBytes := 10485760;
                           privateBytes := 1048576 |}), w')).
Proof.
  destruct (tryGetProcessName_two_tier (stub_api stub_two)) as [Hname Hrecord].
  destruct (Hname 128 initial_world) as (resolved & w' & Hrun & Hcase & Hnonempty).
  cbn in Hcase. destruct Hcase as [_ Hresolved]. subst resolved.
  split; [exists w'; exact Hrun|].
  split; [exact (Hnonempty stub_two_names_nonempty)|].
  destruct (Hrecord 4 initial_world
              {| WorkingSetSize := 10485760; PrivateUsage := 1048576 |})
    as (resolved & w'' & Hname4 & Hquery).
  - discriminate.
  - discriminate.
  - reflexivity.
  - vm_compute in Hname4. injection Hname4 as <- _.
    eexists. exact Hquery.
Defined.

(** ** The handle wrapper *)

(** C9.  An inspection releases the handle it acquired exactly once,
    whatever its outcome: when [OpenProcess] answered a handle, the calls of
    [queryProcess] end with the one [CloseHandle] on that handle and contain
    no other; when no handle was acquired they contain none.  A block that
    owns a wrapper releases its handle once when it is left, by a return
    or by an exception alike.  A move construction hands the handle to the
    new object and empties the source, whose destruction then releases
    nothing; a move assignment first releases the handle the target holds;
    the destructor releases a handle still held, once, and does nothing
    for an empty wrapper.  (The class has no copy operations, and the
    embedding offers none.) *)
Theorem handle_released_exactly_once {OSState : Type} (api : Win32 OSState) :
  (forall (pid : DWORD) (w : World OSState),
      exists r w' new,
        queryProcess api pid w = (Returned r, w') /\
        w_calls w' = w_calls w ++ new /\
        let h := fst (OpenProcess api ProcessHandle.minimal_access false pid (w_os w)) in
        if pid =? 0 then new = []
        else if h =? nullptr then filter is_CloseHandle new = []
             else exists before,
                 new = before ++ [CallCloseHandle h] /\
                 filter is_CloseHandle before = []) /\
  (forall (A : Type) (body : M OSState A) (this : ProcessHandle.t)
          (w w1 : World OSState) (r : Outcome A),
      ProcessHandle.handle_ this <> nullptr ->
      body w = (r, w1) ->
      r <> OutOfFuel ->
      scope_exit body (ProcessHandle.dtor api this) w =
        (r, add_calls [CallCloseHandle (ProcessHandle.handle_ this)]
              (CloseHandle api (ProcessHandle.handle_ this) (w_os w1)) w1)) /\
  (forall (other : ProcessHandle.t) (w : World OSState),
      ProcessHandle.handle_ (fst (ProcessHandle.move_ctor other))
      = ProcessHandle.handle_ other /\
      ProcessHandle.handle_ (snd (ProcessHandle.move_ctor other)) = nullptr /\
      ProcessHandle.dtor api (snd (ProcessHandle.move_ctor other)) w = (Returned tt, w)) /\
  (forall (this other : ProcessHandle.t) (w : World OSState),
      exists w',
        ProcessHandle.move_assign api this other w =
          (Returned (ProcessHandle.mk (ProcessHandle.handle_ other),
                     ProcessHandle.mk nullptr), w') /\
        w' = if ProcessHandle.handle_ this =? nullptr then w
             else add_calls [CallCloseHandle (ProcessHandle.handle_ this)]
                    (CloseHandle api (ProcessHandle.handle_ this) (w_os w)) w) /\
  (forall (this : ProcessHandle.t) (w : World OSState),
      ProcessHandle.dtor api this w =
        (Returned tt,
         if ProcessHandle.handle_ this =? nullptr then w
         else add_calls [CallCloseHandle (ProcessHandle.handle_ this)]
                (CloseHandle api (ProcessHandle.handle_ this) (w_os w)) w)).
Proof.
  assert (Hdtor : forall (this : ProcessHandle.t) (w : World OSState),
      ProcessHandle.dtor api this w =
        (Returned tt,
         if ProcessHandle.handle_ this =? nullptr then w
         else add_calls [CallCloseHandle (ProcessHandle.handle_ this)]
                (CloseHandle api (ProcessHandle.handle_ this) (w_os w)) w)).
  { intros this w.
    unfold ProcessHandle.dtor, ProcessHandle.close, ProcessHandle.call_CloseHandle,
      bind, ret.
    destruct (ProcessHandle.handle_ this =? nullptr); reflexivity. }
  split; [|split; [|split; [|split]]].
  - intros pid w. unfold_inspector.
    destruct (pid =? 0).
    { exists None, w, []. rewrite app_nil_r. repeat split. }
    destruct (OpenProcess api ProcessHandle.minimal_access false pid (w_os w))
      as [h st1]. cbn [fst snd].
    destruct (h =? nullptr) eqn:Eh; cbn.
    { eexists; eexists; eexists. split; [reflexivity|]. split; reflexivity. }
    rewrite Eh. cbn.
    destruct (GetProcessMemoryInfo api h st1) as [[pmc|] st2]; cbn.
    + destruct (GetModuleBaseNameW api h MAX_PATH st2) as [[buffer|] st3]; cbn.
      * eexists; eexists; eexists. split; [reflexivity|].
        split; [unfold record_call; cbn [w_calls]; rewrite <- !app_assoc; reflexivity|].
        eexists [_; _; _]. split; reflexivity.
      * destruct (QueryFullProcessImageNameW api h 0 MAX_PATH st3)
          as [[buffer|] st4]; cbn;
          (eexists; eexists; eexists; split; [reflexivity|];
           split; [unfold record_call; cbn [w_calls]; rewrite <- !app_assoc; reflexivity|];
           eexists [_; _; _; _]; split; reflexivity).
    + eexists; eexists; eexists. split; [reflexivity|].
      split; [unfold record_call; cbn [w_calls]; rewrite <- !app_assoc; reflexivity|].
      eexists [_; _]. split; reflexivity.
  - intros A body this w w1 r Hheld Hbody Hfuel.
    unfold scope_exit. rewrite Hbody, Hdtor.
    apply N.eqb_neq in Hheld. rewrite Hheld.
    destruct r; [reflexivity|reflexivity|contradiction].
  - intros other w. repeat split.
  - intros this other w. eexists. split; [|reflexivity].
    unfold ProcessHandle.move_assign, ProcessHandle.close,
      ProcessHandle.call_CloseHandle, bind, ret.
    destruct (ProcessHandle.handle_ this =? nullptr); reflexivity.
  - exact Hdtor.
Qed.

Lemma handle_released_exactly_once_witness :
  (exists r w',
      queryProcess (stub_api stub_app) 200 initial_world = (Returned r, w') /\
      filter is_CloseHandle (w_calls w') = [CallCloseHandle 4660]) /\
  scope_exit (throw (std_exception "failure")) (ProcessHandle.dtor (stub_api stub_app)
                                                  (ProcessHandle.mk 7))
    initial_world
  = (Thrown (A := unit) (std_exception "failure"),
     {| w_os := 0; w_calls := [CallCloseHandle 7];
        w_wcout := []; w_cerr := EmptyString |}).
Proof.
  destruct (handle_released_exactly_once (stub_api stub_app))
    as (Hinspect & Hscope & _).
  split.
  - destruct (Hinspect 200 initial_world) as (r & w' & new & Hrun & Hcalls & Hnew).
    cbn in Hnew. destruct Hnew as (before & -> & Hbefore).
    exists r, w'. split; [exact Hrun|].
    rewrite Hcalls. cbn [initial_world w_calls app].
    rewrite filter_app, Hbefore. reflexivity.
  - rewrite (Hscope unit (throw (std_exception "failure")) (ProcessHandle.mk 7)
               initial_world initial_world (Thrown (std_exception "failure"))).
    + reflexivity.
    + discriminate.
    + reflexivity.
    + discriminate.
Defined.

(** ** The collection pass *)

(** C5.  [collectProcesses] is the filter-map of [queryProcess] over the
    identifiers of one [enumerateProcessIds] call, in enumeration order:
    it equals [collectProcesses_spec] on every world.  Whenever the
    enumerator returns, the pass returns as well, with at most as many
    records as identifiers; an empty result is a result, not an error.  On
    the stub with identifiers 0, 100 and 200 (0 rejected, 100 not openable,
    200 with 50 MiB working set, 20 MiB private bytes and base name
    ["app.exe"]) the pass returns exactly that one record. *)
Theorem collectProcesses_is_filter_map :
  (forall (OSState : Type) (api : Win32 OSState) (fuel : nat) (w : World OSState),
      collectProcesses api fuel w = collectProcesses_spec api fuel w) /\
  (forall (OSState : Type) (api : Win32 OSState) (fuel : nat)
          (w w1 : World OSState) (pids : list DWORD),
      enumerateProcessIds api fuel w = (Returned pids, w1) ->
      exists records w2,
        collectProcesses api fuel w = (Returned records, w2) /\
        filter_map_M (queryProcess api) pids w1 = (Returned records, w2) /\
        (length records <= length pids)%nat) /\
  fst (collectProcesses (stub_api stub_5000) 4 initial_world) = Returned [] /\
  fst (collectProcesses (stub_api stub_app) 1 initial_world)
  = Returned [ {| pid := 200; name := L "app.exe";
                  workingSetBytes := 52428800; privateBytes := 20971520 |} ].
Proof.
  assert (Hspec : forall (OSState : Type) (api : Win32 OSState) (fuel : nat)
                         (w : World OSState),
             collectProcesses api fuel w = collectProcesses_spec api fuel w).
  { intros OSState api fuel w.
    unfold collectProcesses, collectProcesses_spec.
    unfold bind at 1 3.
    destruct (enumerateProcessIds api fuel w) as [[pids| |] w1]; try reflexivity.
    rewrite for_each_push_back. unfold bind, ret.
    destruct (filter_map_M (queryProcess api) pids w1) as [[rest| |] w2]; reflexivity. }
  split; [exact Hspec|]. split; [|split].
  - intros OSState api fuel w w1 pids Henum.
    destruct (filter_map_M_queryProcess api pids w1) as (records & w2 & Hrun & Hlen).
    exists records, w2. split; [|split; assumption].
    rewrite Hspec. unfold collectProcesses_spec, bind. rewrite Henum. exact Hrun.
  - vm_compute. reflexivity.
  - vm_compute. reflexivity.
Qed.

Lemma collectProcesses_is_filter_map_witness :
  exists records w2,
    collectProcesses (stub_api stub_two) 1 initial_world = (Returned records, w2) /\
    (length records <= 2)%nat.
Proof.
  destruct collectProcesses_is_filter_map as (_ & Hpass & _).
  destruct (Hpass _ (stub_api stub_two) 1%nat initial_world
              (record_call (CallEnumProcesses 4096) 0 initial_world) [4; 8])
    as (records & w2 & Hrun & _ & Hlen).
  - vm_compute. reflexivity.
  - exists records, w2. split; [exact Hrun|exact Hlen].
Defined.

(** ** The report *)

Lemma by_working_set_strict_weak_order : strict_weak_order by_working_set.
Proof.
  unfold strict_weak_order, by_working_set. split.
  - intros x y H. apply N.ltb_lt in H. apply N.ltb_ge. lia.
  - intros x y z Hxy Hyz. apply N.ltb_ge in Hxy, Hyz. apply N.ltb_ge. lia.
Qed.

Lemma insert_sorted_permutation {A} (before : A -> A -> bool) (x : A) (l : list A) :
  Permutation (x :: l) (insert_sorted before x l).
Proof.
  induction l as [|y l IH]; cbn [insert_sorted].
  - apply Permutation_refl.
  - destruct (before x y).
    + apply Permutation_refl.
    + apply perm_trans with (y :: x :: l); [apply perm_swap|].
      apply perm_skip. exact IH.
Qed.

Lemma insert_sorted_sorted {A} (before : A -> A -> bool) (x : A) (l : list A) :
  strict_weak_order before ->
  StronglySorted (fun a b => before b a = false) l ->
  StronglySorted (fun a b => before b a = false) (insert_sorted before x l).
Proof.
  intros [Hasym Htrans] Hl.
  induction Hl as [|y l Hl IH Hy]; cbn [insert_sorted].
  - constructor; constructor.
  - destruct (before x y) eqn:E.
    + constructor; [constructor; assumption|].
      constructor; [apply Hasym; exact E|].
      apply Forall_forall. intros z Hz.
      rewrite Forall_forall in Hy.
      apply Htrans with y; [apply Hy; exact Hz|apply Hasym; exact E].
    + constructor; [exact IH|].
      apply (Permutation_Forall (insert_sorted_permutation before x l)).
      constructor; assumption.
Qed.

Lemma insertion_sort_conforms : sort_conforms (@insertion_sort ProcessInfo).
Proof.
  intros before l Hswo. split.
  - induction l as [|x l IH]; cbn [insertion_sort]; [constructor|].
    apply perm_trans with (x :: insertion_sort before l).
    + apply perm_skip. exact IH.
    + apply insert_sorted_permutation.
  - induction l as [|x l IH]; cbn [insertion_sort]; [constructor|].
    apply insert_sorted_sorted; assumption.
Qed.

Lemma firstn_as_nth {A} (d : A) (l : list A) :
  forall n, (n <= length l)%nat ->
    map (fun i => nth i l d) (seq 0 n) = firstn n l.
Proof.
  induction l as [|a l IH]; intros n Hn.
  - cbn in Hn. replace n with 0%nat by lia. reflexivity.
  - destruct n as [|n]; [reflexivity|].
    cbn [seq map nth firstn]. f_equal.
    rewrite <- seq_shift, map_map. apply IH. cbn in Hn. lia.
Qed.

Lemma for_each_wcout_put {OSState A : Type} (g : A -> wstring) (l : list A) :
  forall w : World OSState,
    for_each l tt (fun _ a => wcout_put (g a)) w
    = (Returned tt, set_wcout (w_wcout w ++ concat (map g l)) w).
Proof.
  induction l as [|a l IH]; intros w.
  - cbn. unfold ret, set_wcout. rewrite app_nil_r. destruct w; reflexivity.
  - cbn [for_each map concat]. unfold bind, wcout_put at 1.
    rewrite IH. unfold set_wcout. cbn [w_os w_calls w_wcout w_cerr].
    rewrite <- app_assoc. reflexivity.
Qed.

Section ReportFacts.
Context {OSState : Type} (api : Win32 OSState).
Variable std_sort :
  (ProcessInfo -> ProcessInfo -> bool) -> list ProcessInfo -> list ProcessInfo.
Variable put_megabytes : Bytes -> wstring.

(** What a call of [printTopByWorkingSet] does, for any sort. *)
Lemma printTopByWorkingSet_run
    (processes : list ProcessInfo) (topN : size_t) (w : World OSState) :
  printTopByWorkingSet std_sort put_megabytes processes topN w =
    (Returned processes,
     set_wcout (w_wcout w ++ report std_sort put_megabytes processes topN) w).
Proof.
  unfold printTopByWorkingSet, report.
  destruct processes as [|p processes].
  - reflexivity.
  - set (sorted := std_sort by_working_set (p :: processes)).
    set (shown := N.min topN (size sorted)).
    unfold bind. unfold wcout_put at 1.
    rewrite (for_each_wcout_put
               (fun i => table_row put_megabytes
                           (nth (N.to_nat i) sorted ProcessInfo_default))).
    unfold set_wcout. cbn [w_os w_calls w_wcout w_cerr]. unfold ret.
    rewrite <- app_assoc.
    unfold indices. rewrite map_map.
    rewrite <- (firstn_as_nth ProcessInfo_default sorted (N.to_nat shown)).
    + rewrite map_map.
      rewrite (map_ext (fun x => table_row put_megabytes
                                   (nth (N.to_nat (N.of_nat x)) sorted ProcessInfo_default))
                       (fun x => table_row put_megabytes
                                   (nth x sorted ProcessInfo_default))).
      * reflexivity.
      * intros x. rewrite Nat2N.id. reflexivity.
    + unfold shown, size. lia.
Qed.

Lemma runSniffer_run (fuel : nat) (topN : size_t) (w w1 : World OSState)
    (processes : list ProcessInfo) :
  collectProcesses api fuel w = (Returned processes, w1) ->
  runSniffer api std_sort put_megabytes fuel topN w =
    (Returned EXIT_SUCCESS,
     set_wcout (w_wcout w1 ++ report std_sort put_megabytes processes topN) w1).
Proof.
  intros Hcollect.
  unfold runSniffer, try_catch. unfold bind at 1. rewrite Hcollect.
  unfold bind. rewrite printTopByWorkingSet_run. reflexivity.
Qed.
End ReportFacts.

Lemma sorted_descending (before_sorted : list ProcessInfo) :
  StronglySorted (fun x y => by_working_set y x = false) before_sorted ->
  StronglySorted (fun a b => workingSetBytes b <= workingSetBytes a) before_sorted.
Proof.
  induction 1 as [|a l Hl IH Ha]; constructor; [exact IH|].
  apply (Forall_impl _ (P := fun y => by_working_set y a = false)); [|exact Ha].
  intros y Hy. unfold by_working_set in Hy. apply N.ltb_ge in Hy. exact Hy.
Qed.

Lemma displayName_short (p : ProcessInfo) :
  size (name p) <= MAX_NAME_LEN -> displayName p = name p.
Proof.
  intros H. unfold displayName. apply N.ltb_ge in H. rewrite H. reflexivity.
Qed.

Lemma displayName_long (p : ProcessInfo) :
  MAX_NAME_LEN < size (name p) ->
  displayName p = firstn 27 (name p) ++ L "..." /\ size (displayName p) = 30.
Proof.
  intros H. unfold displayName. pose proof H as Hlt.
  apply N.ltb_lt in H. rewrite H.
  assert (Heq : substr 0 (MAX_NAME_LEN - 1) (name p) ++ L "..."
                = firstn 27 (name p) ++ L "...") by reflexivity.
  rewrite Heq. split; [reflexivity|].
  unfold size in *. rewrite length_app, length_firstn.
  unfold MAX_NAME_LEN in Hlt.
  replace (Nat.min 27 (length (name p))) with 27%nat by lia.
  reflexivity.
Qed.

(** C1.  A name longer than [MAX_NAME_LEN] = 28 characters is cut to its
    first 27 characters and the three-character marker ["..."] is
    appended, so the displayed name has 30 characters, two more than the
    limit; a name of at most 28 characters is displayed unchanged.  For the
    29-character name of [long_named] the display is
    ["ProcessMemorySnifferAgent.e..."]. *)
Theorem displayName_exceeds_limit :
  (forall p, MAX_NAME_LEN < size (name p) ->
             displayName p = firstn 27 (name p) ++ L "..." /\
             size (displayName p) = 30) /\
  (forall p, size (name p) <= MAX_NAME_LEN -> displayName p = name p) /\
  size (name long_named) = 29 /\
  displayName long_named = L "ProcessMemorySnifferAgent.e..." /\
  size (displayName long_named) = 30 /\
  MAX_NAME_LEN < size (displayName long_named).
Proof.
  split; [exact displayName_long|].
  split; [exact displayName_short|].
  repeat split.
Qed.

Lemma displayName_exceeds_limit_witness :
  size (displayName long_named) = 30 /\
  displayName (mkProcessInfo 4 (L "System") 0 0) = L "System".
Proof.
  destruct displayName_exceeds_limit as (Hlong & Hshort & _).
  split.
  - apply (Hlong long_named). reflexivity.
  - apply (Hshort (mkProcessInfo 4 (L "System") 0 0)). discriminate.
Defined.

(** C8.  For a conforming [std::sort], every record collection and every
    requested count, [printTopByWorkingSet] prints, after the heading with
    the clamped count and the line of column titles, one row for each of
    the first [min (topN, number of records)] records of the collection
    sorted by working set, largest first, and nothing else (for an empty
    collection the one line ["No processes available."] and no row).  A
    row is the identifier in a field of 8, the displayed name in a field
    of 30, the two sizes in fields of 16 and a newline.  With a count of 1
    and at least one record there is exactly one row, of a record with the
    largest working set; with a count of at least the number of records
    all records are listed. *)
Theorem printTopByWorkingSet_sorted_and_clamped
    {OSState : Type}
    (std_sort : (ProcessInfo -> ProcessInfo -> bool) -> list ProcessInfo -> list ProcessInfo)
    (put_megabytes : Bytes -> wstring)
    (processes : list ProcessInfo) (topN : size_t) (w : World OSState) :
  sort_conforms std_sort ->
  let sorted := std_sort by_working_set processes in
  let rows := firstn (N.to_nat (N.min topN (size processes))) sorted in
    Permutation processes sorted /\
    StronglySorted (fun a b => workingSetBytes b <= workingSetBytes a) sorted /\
    size rows = N.min topN (size processes) /\
    printTopByWorkingSet std_sort put_megabytes processes topN w =
      (Returned processes,
       set_wcout
         (w_wcout w ++
          match processes with
          | [] => L "No processes available." ++ newline
          | _ :: _ =>
              (L "Top " ++ to_wstring (N.min topN (size processes))
                 ++ L " processes by working set (physical ram):"
                 ++ newline ++ newline
                 ++ L "PID     Process                       WorkingSet (MB) Private (MB)    "
                 ++ newline)
                ++ concat
                     (map (fun p =>
                             put_left 8 (to_wstring (pid p))
                               ++ put_left 30
                                    (if 28 <? size (name p)
                                     then firstn 27 (name p) ++ L "..."
                                     else name p)
                               ++ put_left 16 (put_megabytes (workingSetBytes p))
                               ++ put_left 16 (put_megabytes (privateBytes p))
                               ++ newline)
                          rows)
          end) w) /\
    (topN = 1 -> processes <> [] ->
     exists top,
       rows = [top] /\ In top processes /\
       forall p, In p processes -> workingSetBytes p <= workingSetBytes top) /\
    (size processes <= topN -> rows = sorted).
Proof.
  intros Hsort sorted rows.
  destruct (Hsort by_working_set processes by_working_set_strict_weak_order)
    as [Hperm Hsorted].
  apply sorted_descending in Hsorted.
  fold sorted in Hperm, Hsorted.
  assert (Hsize : size sorted = size processes).
  { unfold size. rewrite (Permutation_length Hperm). reflexivity. }
  subst rows.
  split; [exact Hperm|]. split; [exact Hsorted|].
  split.
  { unfold size in *. rewrite length_firstn. lia. }
  split.
  { rewrite printTopByWorkingSet_run. unfold report. fold sorted.
    destruct processes; [reflexivity|]. cbv zeta. rewrite Hsize. reflexivity. }
  split.
  - intros -> Hne.
    clearbody sorted.
    destruct sorted as [|top rest].
    { apply Permutation_sym, Permutation_nil in Hperm. contradiction. }
    exists top.
    assert (Hmin : N.to_nat (N.min 1 (size processes)) = 1%nat).
    { rewrite <- Hsize. unfold size. cbn [length]. lia. }
    rewrite Hmin. split; [reflexivity|].
    split.
    + apply (Permutation_in top (Permutation_sym Hperm)). left. reflexivity.
    + intros p Hp. apply (Permutation_in p Hperm) in Hp.
      inversion Hsorted as [|a l Hl Hall]; subst.
      destruct Hp as [<-|Hp]; [lia|].
      rewrite Forall_forall in Hall. apply Hall. exact Hp.
  - intros Hall.
    apply firstn_all2. unfold size in *. lia.
Qed.

Lemma printTopByWorkingSet_sorted_and_clamped_witness :
  w_wcout (snd (printTopByWorkingSet (@insertion_sort _) fixed2_megabytes
                  [ long_named; mkProcessInfo 8 (L "big.exe") 52428800 2097152 ]
                  1 initial_world))
  = L "Top 1 processes by working set (physical ram):" ++ newline ++ newline
      ++ L "PID     Process                       WorkingSet (MB) Private (MB)    " ++ newline
      ++ L "8       big.exe                       50.00           2.00            " ++ newline
  /\
  w_wcout (snd (printTopByWorkingSet (@insertion_sort _) fixed2_megabytes
                  [ long_named; mkProcessInfo 8 (L "big.exe") 52428800 2097152 ]
                  5 initial_world))
  = L "Top 2 processes by working set (physical ram):" ++ newline ++ newline
      ++ L "PID     Process                       WorkingSet (MB) Private (MB)    " ++ newline
      ++ L "8       big.exe                       50.00           2.00            " ++ newline
      ++ L "4242    ProcessMemorySnifferAgent.e...1.00            1.00            " ++ newline.
Proof.
  split.
  - destruct (printTopByWorkingSet_sorted_and_clamped
                (@insertion_sort _) fixed2_megabytes
                [ long_named; mkProcessInfo 8 (L "big.exe") 52428800 2097152 ]
                1 initial_world insertion_sort_conforms)
      as (_ & _ & _ & Hrun & _).
    rewrite Hrun. vm_compute. reflexivity.
  - destruct (printTopByWorkingSet_sorted_and_clamped
                (@insertion_sort _) fixed2_megabytes
                [ long_named; mkProcessInfo 8 (L "big.exe") 52428800 2097152 ]
                5 initial_world insertion_sort_conforms)
      as (_ & _ & _ & Hrun & _).
    rewrite Hrun. vm_compute. reflexivity.
Defined.

(** C10.  [printTopByWorkingSet] leaves the vector it is given as it was:
    it sorts the copy [sorted], and the caller's records, with their
    identifiers, names, byte counts and order, are unchanged when it
    returns; it always returns, and touches nothing of the world but the
    output stream. *)
Theorem printTopByWorkingSet_preserves_input
    {OSState : Type}
    (std_sort : (ProcessInfo -> ProcessInfo -> bool) -> list ProcessInfo -> list ProcessInfo)
    (put_megabytes : Bytes -> wstring)
    (processes : list ProcessInfo) (topN : size_t) (w : World OSState) :
  exists w',
    printTopByWorkingSet std_sort put_megabytes processes topN w
    = (Returned processes, w') /\
    w_os w' = w_os w /\ w_calls w' = w_calls w /\ w_cerr w' = w_cerr w.
Proof.
  eexists. split; [apply printTopByWorkingSet_run|].
  repeat split.
Qed.

(** ** The top level *)

(** C2, as stated, fails: on the system with two inspectable processes the
    reports for the counts 1 and 2 differ. *)
Lemma runSniffer_ignores_topN_counterexample :
  ~ (forall n1 n2 : size_t,
        n1 <> n2 ->
        runSniffer (stub_api stub_two) (@insertion_sort _) fixed2_megabytes
          1 n1 initial_world
        = runSniffer (stub_api stub_two) (@insertion_sort _) fixed2_megabytes
            1 n2 initial_world).
Proof.
  intros H.
  specialize (H 1 2 ltac:(discriminate)).
  vm_compute in H. discriminate H.
Qed.

(** C2, amended.  [runSniffer] hands its argument to
    [printTopByWorkingSet] unchanged: once the collection pass has returned
    its records, the run succeeds and prints the report of those records for
    the count it was called with.  Two counts therefore give the same run
    exactly when clamping them to the number of records makes them equal, in
    particular when both are at least that number.  [wmain] asks for 10. *)
Theorem runSniffer_honours_topN
    {OSState : Type} (api : Win32 OSState)
    (std_sort : (ProcessInfo -> ProcessInfo -> bool) -> list ProcessInfo -> list ProcessInfo)
    (put_megabytes : Bytes -> wstring)
    (fuel : nat) (w w1 : World OSState) (processes : list ProcessInfo) :
  sort_conforms std_sort ->
  collectProcesses api fuel w = (Returned processes, w1) ->
  (forall topN,
      runSniffer api std_sort put_megabytes fuel topN w =
        (Returned EXIT_SUCCESS,
         set_wcout (w_wcout w1 ++ report std_sort put_megabytes processes topN) w1) /\
      snd (printTopByWorkingSet std_sort put_megabytes processes topN w1)
      = snd (runSniffer api std_sort put_megabytes fuel topN w)) /\
  (forall n1 n2,
      N.min n1 (size processes) = N.min n2 (size processes) ->
      runSniffer api std_sort put_megabytes fuel n1 w
      = runSniffer api std_sort put_megabytes fuel n2 w) /\
  wmain api std_sort put_megabytes fuel w
  = runSniffer api std_sort put_megabytes fuel 10 w.
Proof.
  intros Hsort Hcollect.
  split; [|split].
  - intros topN.
    rewrite (runSniffer_run api std_sort put_megabytes fuel topN w w1 processes Hcollect).
    split; [reflexivity|].
    rewrite printTopByWorkingSet_run. reflexivity.
  - intros n1 n2 Hmin.
    rewrite !(runSniffer_run api std_sort put_megabytes fuel _ w w1 processes Hcollect).
    f_equal. f_equal. f_equal.
    unfold report. destruct processes as [|p processes]; [reflexivity|].
    cbv zeta.
    destruct (Hsort by_working_set (p :: processes) by_working_set_strict_weak_order)
      as [Hperm _].
    assert (Hsize : size (std_sort by_working_set (p :: processes))
                    = size (p :: processes)).
    { unfold size. rewrite (Permutation_length Hperm). reflexivity. }
    rewrite Hsize, Hmin. reflexivity.
  - reflexivity.
Qed.

Lemma runSniffer_honours_topN_witness :
  runSniffer (stub_api stub_two) (@insertion_sort _) fixed2_megabytes 1 5 initial_world
  = runSniffer (stub_api stub_two) (@insertion_sort _) fixed2_megabytes 1 10 initial_world.
Proof.
  destruct (runSniffer_honours_topN (stub_api stub_two) (@insertion_sort _)
              fixed2_megabytes 1 initial_world
              (snd (collectProcesses (stub_api stub_two) 1 initial_world))
              (mkProcessInfo 4 (L "<unknown>") 10485760 1048576
               :: mkProcessInfo 8 (L "C:\Tools\big.exe") 52428800 2097152 :: nil)
              insertion_sort_conforms)
    as (_ & Hsame & _).
  - vm_compute. reflexivity.
  - apply (Hsame 5 10). vm_compute. reflexivity.
Defined.

(** * Further properties *)

(** ** The enumerator, continued *)

Lemma capacity_positive (j : nat) : 0 < capacity j.
Proof.
  unfold capacity, PID_VECT_SIZE.
  assert (0 < 2 ^ N.of_nat j) by (apply N.neq_0_lt_0, N.pow_nonzero; discriminate).
  lia.
Qed.

Lemma capacity_monotone (i j : nat) : (i <= j)%nat -> capacity i <= capacity j.
Proof.
  induction 1 as [|j Hij IH]; [lia|].
  rewrite capacity_succ. lia.
Qed.

Lemma capacity_19 : capacity 19 = 2 ^ 29.
Proof. reflexivity. Qed.

Lemma request_exact (j : nat) :
  (j < 20)%nat -> request j = capacity j * sizeof_DWORD.
Proof.
  intros Hj. unfold request, to_DWORD.
  apply N.mod_small.
  pose proof (capacity_monotone j 19 ltac:(lia)) as H.
  rewrite capacity_19 in H. unfold DWORD_modulus, sizeof_DWORD.
  change (2 ^ 32) with (2 ^ 29 * 8). lia.
Qed.

Lemma request_wrapped (j : nat) : (20 <= j)%nat -> request j = 0.
Proof.
  intros Hj. unfold request, to_DWORD, DWORD_modulus, capacity, PID_VECT_SIZE, sizeof_DWORD.
  replace j with (20 + (j - 20))%nat by lia.
  rewrite Nat2N.inj_add, N.pow_add_r.
  change (2 ^ N.of_nat 20) with (2 ^ 20).
  replace (1024 * (2 ^ 20 * 2 ^ N.of_nat (j - 20)) * 4)
    with (2 ^ N.of_nat (j - 20) * 2 ^ 32).
  - apply N.Div0.mod_mul.
  - change (2 ^ 32) with (1024 * 2 ^ 20 * 4). lia.
Qed.

(** X1.  As long as every reply of the primitive fills the buffer, the
    loop of [enumerateProcessIds] neither returns nor throws: after any
    number [n] of such replies it has made exactly the [n] requests with
    capacities 1024, 2048, ... and is still asking, with a capacity that
    is strictly larger than any before. *)
Theorem enumerateProcessIds_keeps_asking
    {OSState : Type} (api : Win32 OSState) (n : nat) (w : World OSState) :
  (forall i, (i < n)%nat -> buffer_full api i (w_os w)) ->
  enumerateProcessIds api n w =
    (OutOfFuel, add_calls (enum_calls 0 n) (os_before api n (w_os w)) w) /\
  size (buffer_before api n (w_os w)) = PID_VECT_SIZE * 2 ^ N.of_nat n /\
  (forall i, (i < n)%nat -> capacity i < capacity n).
Proof.
  intros Hfull. split; [|split].
  - unfold enumerateProcessIds.
    apply (enumerate_loop_keeps_growing api n 0%nat (w_os w) w eq_refl).
    intros i Hi. apply Hfull. lia.
  - apply buffer_before_size.
  - intros i Hi.
    pose proof (capacity_monotone (S i) n ltac:(lia)) as H.
    rewrite capacity_succ in H.
    pose proof (capacity_positive i). lia.
Qed.

Lemma enumerateProcessIds_keeps_asking_witness :
  enumerateProcessIds stub_always_full 3 initial_world =
    (OutOfFuel,
     {| w_os := 0;
        w_calls := [CallEnumProcesses 4096; CallEnumProcesses 8192;
                    CallEnumProcesses 16384];
        w_wcout := []; w_cerr := EmptyString |}).
Proof.
  destruct (enumerateProcessIds_keeps_asking stub_always_full 3 initial_world)
    as (Hrun & _).
  - intros i Hi.
    destruct i as [|[|[|i]]]; [| | |lia];
      (split; [vm_compute; reflexivity | vm_compute; discriminate]).
  - rewrite Hrun. reflexivity.
Defined.

Lemma doublings_exist (n : N) :
  exists k, n < capacity k /\ forall i, (i < k)%nat -> capacity i <= n.
Proof.
  assert (Hbound : n < capacity (N.to_nat n)).
  { unfold capacity, PID_VECT_SIZE. rewrite N2Nat.id.
    pose proof (N.pow_gt_lin_r 2 n ltac:(lia)). lia. }
  revert Hbound. generalize (N.to_nat n) as m.
  induction m as [|m IH]; intros Hm.
  - exists 0%nat. split; [exact Hm|]. intros i Hi. lia.
  - destruct (N.lt_ge_cases n (capacity m)) as [Hlt|Hge].
    + apply IH. exact Hlt.
    + exists (S m). split; [exact Hm|].
      intros i Hi. pose proof (capacity_monotone i m ltac:(lia)). lia.
Qed.

Section StubFacts.
Variable s : Stub.
Variable ids : list DWORD.
Hypothesis Hids : stub_ids s = Some ids.

Lemma stub_os_before (j : nat) (st : DWORD) : os_before (stub_api s) j st = st.
Proof.
  induction j as [|j IH]; [reflexivity|].
  cbn [os_before stub_api EnumProcesses]. rewrite Hids. cbn [snd]. exact IH.
Qed.

Lemma stub_reply (j : nat) (st : DWORD) :
  reply_at (stub_api s) j st =
    {| enum_ok := true;
       enum_written := firstn (N.to_nat (request j / sizeof_DWORD)) ids;
       enum_bytes := size (firstn (N.to_nat (request j / sizeof_DWORD)) ids)
                     * sizeof_DWORD |}.
Proof.
  unfold reply_at. cbn [stub_api EnumProcesses]. rewrite Hids. reflexivity.
Qed.

Lemma stub_count (j : nat) (st : DWORD) :
  (j < 20)%nat ->
  count_at (stub_api s) j st = N.min (capacity j) (size ids).
Proof.
  intros Hj. unfold count_at. rewrite stub_reply. cbn [enum_bytes].
  rewrite request_exact by exact Hj.
  unfold sizeof_DWORD. rewrite !N.div_mul by discriminate.
  unfold size. rewrite length_firstn. lia.
Qed.
End StubFacts.

(** X2.  Over a primitive that stores the live identifiers as far as the
    buffer reaches and reports how many bytes it stored, the enumerator
    returns the injected list itself, whatever the list, as long as it has
    fewer than [2 ^ 29] identifiers: it asks once for every capacity
    1024, 2048, ... up to the first one the list is shorter than, and any
    fuel above that number of doublings suffices. *)
Theorem enumerateProcessIds_returns_injected_list
    (s : Stub) (ids : list DWORD) (w : World DWORD) :
  stub_ids s = Some ids ->
  size ids < 2 ^ 29 ->
  exists k,
    (k <= 19)%nat /\
    (forall i, (i < k)%nat -> capacity i <= size ids) /\
    size ids < capacity k /\
    forall fuel, (k < fuel)%nat ->
      enumerateProcessIds (stub_api s) fuel w =
        (Returned ids, add_calls (enum_calls 0 (S k)) (w_os w) w).
Proof.
  intros Hids Hsmall.
  destruct (doublings_exist (size ids)) as (k & Hk & Hmin).
  assert (Hk19 : (k <= 19)%nat).
  { destruct (Nat.le_gt_cases k 19) as [H|H]; [exact H|].
    pose proof (Hmin 19%nat H) as H19. rewrite capacity_19 in H19. lia. }
  exists k. split; [exact Hk19|]. split; [exact Hmin|]. split; [exact Hk|].
  intros fuel Hfuel.
  unfold enumerateProcessIds.
  change (repeat 0 (N.to_nat PID_VECT_SIZE))
    with (buffer_before (stub_api s) 0 (w_os w)).
  pose proof (enumerate_loop_converges (stub_api s) k 0%nat fuel (w_os w) w eq_refl)
    as H.
  cbn [Nat.add] in H.
  rewrite H; clear H.
  - rewrite (stub_os_before s ids Hids).
    rewrite (stub_count s ids Hids) by lia.
    rewrite (stub_reply s ids Hids). cbn [enum_written].
    rewrite request_exact by lia.
    unfold sizeof_DWORD. rewrite N.div_mul by discriminate.
    rewrite N.min_r by lia.
    rewrite (@firstn_all2 _ (N.to_nat (capacity k)) ids)
      by (unfold size in Hk; lia).
    pose proof (buffer_before_size (stub_api s) k (w_os w)) as Hb.
    rewrite resize_shrink.
    + unfold size. rewrite Nat2N.id. rewrite overwrite_prefix; [reflexivity|].
      unfold size in Hb, Hk. lia.
    + unfold size. rewrite overwrite_length.
      unfold size in Hb, Hk. lia.
  - intros i Hi. split.
    + rewrite (stub_reply s ids Hids). reflexivity.
    + rewrite (stub_count s ids Hids) by lia.
      pose proof (Hmin i ltac:(lia)). lia.
  - rewrite (stub_reply s ids Hids). reflexivity.
  - rewrite (stub_count s ids Hids) by lia. lia.
  - exact Hfuel.
Qed.

Lemma enumerateProcessIds_returns_injected_list_witness :
  exists k,
    forall fuel, (k < fuel)%nat ->
      fst (enumerateProcessIds (stub_api stub_5000) fuel initial_world)
      = Returned (map N.of_nat (seq 1 5000)).
Proof.
  destruct (enumerateProcessIds_returns_injected_list
              stub_5000 (map N.of_nat (seq 1 5000)) initial_world)
    as (k & _ & _ & _ & Hrun).
  - reflexivity.
  - vm_compute. reflexivity.
  - exists k. intros fuel Hfuel. rewrite (Hrun fuel Hfuel). reflexivity.
Defined.

(** X3.  The byte size handed to [EnumProcesses] is the size of the buffer
    while the buffer has fewer than [2 ^ 30] entries, and 0 from the
    twentieth doubling on, where the cast to [DWORD] wraps.  Hence over a
    primitive that always succeeds and reports the whole offered size as
    used, the loop does stop: the twenty-first request offers 0 bytes, the
    count 0 is below the capacity, and the enumerator returns the empty
    list.  (The vector itself is not bounded in the embedding.) *)
Theorem enumerateProcessIds_request_wraps
    {OSState : Type} (api : Win32 OSState) (fuel : nat) (w : World OSState) :
  (forall cb st,
      enum_ok (fst (EnumProcesses api cb st)) = true /\
      enum_bytes (fst (EnumProcesses api cb st)) = cb) ->
  (20 < fuel)%nat ->
  (forall j, (j < 20)%nat -> request j = size (buffer_before api j (w_os w)) * sizeof_DWORD) /\
  (forall j, (20 <= j)%nat -> request j = 0) /\
  exists w',
    enumerateProcessIds api fuel w = (Returned [], w') /\
    w_calls w' = w_calls w ++ enum_calls 0 21.
Proof.
  intros Hfills Hfuel.
  split; [|split].
  - intros j Hj. rewrite buffer_before_size. apply request_exact. exact Hj.
  - exact request_wrapped.
  - assert (Hcount : forall j, count_at api j (w_os w) = request j / sizeof_DWORD).
    { intros j. unfold count_at, reply_at.
      rewrite (proj2 (Hfills _ _)). reflexivity. }
    unfold enumerateProcessIds.
    change (repeat 0 (N.to_nat PID_VECT_SIZE)) with (buffer_before api 0 (w_os w)).
    pose proof (enumerate_loop_converges api 20 0%nat fuel (w_os w) w eq_refl) as H.
    cbn [Nat.add] in H.
    rewrite H; clear H.
    + rewrite Hcount, request_wrapped by lia.
      eexists. split; reflexivity.
    + intros i Hi. split.
      * unfold reply_at. apply (proj1 (Hfills _ _)).
      * rewrite Hcount, request_exact by lia.
        unfold sizeof_DWORD. rewrite N.div_mul by discriminate. lia.
    + unfold reply_at. apply (proj1 (Hfills _ _)).
    + rewrite Hcount, request_wrapped by lia.
      apply capacity_positive.
    + exact Hfuel.
Qed.

Lemma enumerateProcessIds_request_wraps_witness :
  exists w', enumerateProcessIds stub_always_full 21 initial_world = (Returned [], w').
Proof.
  destruct (enumerateProcessIds_request_wraps stub_always_full 21 initial_world)
    as (_ & _ & w' & Hrun & _).
  - intros cb st. split; reflexivity.
  - lia.
  - exists w'. exact Hrun.
Defined.

(** ** The handle wrapper, continued *)

(** X4.  [ProcessHandle::open] makes exactly one call, [OpenProcess] with
    the access [PROCESS_QUERY_INFORMATION | PROCESS_VM_READ] (0x410), no
    handle inheritance and the given identifier, and releases nothing.  Its
    result is empty exactly when the system answered the null handle;
    otherwise it wraps the handle the system answered, so an engaged result
    always tests true. *)
Theorem open_wraps_the_answer
    {OSState : Type} (api : Win32 OSState) (pid : DWORD) (w : World OSState) :
  let answer := fst (OpenProcess api 1040 false pid (w_os w)) in
  exists handleOpt w',
    ProcessHandle.open api pid w = (Returned handleOpt, w') /\
    w_calls w' = w_calls w ++ [CallOpenProcess 1040 false pid] /\
    w_os w' = snd (OpenProcess api 1040 false pid (w_os w)) /\
    (handleOpt = None <-> answer = nullptr) /\
    (forall handle, handleOpt = Some handle ->
                    ProcessHandle.get handle = answer /\
                    ProcessHandle.operator_bool handle = true).
Proof.
  intros answer. subst answer.
  rewrite open_run.
  change ProcessHandle.minimal_access with 1040.
  eexists; eexists. split; [reflexivity|].
  split; [reflexivity|]. split; [reflexivity|].
  cbv zeta.
  destruct (fst (OpenProcess api 1040 false pid (w_os w)) =? nullptr) eqn:E.
  - apply N.eqb_eq in E. split; [tauto|]. intros handle H. discriminate H.
  - pose proof E as Hne. apply N.eqb_neq in Hne. split.
    + split; [discriminate|contradiction].
    + intros handle H. injection H as <-.
      unfold ProcessHandle.get, ProcessHandle.operator_bool.
      cbn [ProcessHandle.handle_]. rewrite E. split; reflexivity.
Qed.

Lemma open_wraps_the_answer_witness :
  fst (ProcessHandle.open (stub_api stub_app) 200 initial_world)
  = Returned (Some (ProcessHandle.mk 4660)) /\
  fst (ProcessHandle.open (stub_api stub_app) 100 initial_world) = Returned None.
Proof.
  split.
  - destruct (open_wraps_the_answer (stub_api stub_app) 200 initial_world)
      as (handleOpt & w' & Hrun & _ & _ & _ & Hsome).
    rewrite Hrun. cbn [fst].
    destruct handleOpt as [[h]|].
    + destruct (Hsome _ eq_refl) as [Hget _]. cbn in Hget. subst h. reflexivity.
    + vm_compute in Hrun. discriminate Hrun.
  - destruct (open_wraps_the_answer (stub_api stub_app) 100 initial_world)
      as (handleOpt & w' & Hrun & _ & _ & Hnone & _).
    rewrite Hrun. cbn [fst]. f_equal. apply Hnone. reflexivity.
Defined.

Lemma dtor_run {OSState : Type} (api : Win32 OSState)
    (this : ProcessHandle.t) (w : World OSState) :
  exists st,
    ProcessHandle.dtor api this w
    = (Returned tt, add_calls (closes (ProcessHandle.handle_ this)) st w) /\
    (ProcessHandle.handle_ this = nullptr -> st = w_os w).
Proof.
  unfold ProcessHandle.dtor, ProcessHandle.close, ProcessHandle.call_CloseHandle,
    bind, ret, closes, add_calls, record_call.
  destruct (ProcessHandle.handle_ this =? nullptr) eqn:E; cbn [negb].
  - exists (w_os w). rewrite app_nil_r. destruct w. split; reflexivity.
  - eexists. split; [reflexivity|].
    intros H. apply N.eqb_neq in E. contradiction.
Qed.

(** X5.  Ownership is conserved by a move assignment.  After
    [target = std::move(source)] and the destruction of both objects, the
    handle [target] held before and the handle [source] held have each been
    closed exactly once, in that order, and no other call was made; a null
    handle is never passed to [CloseHandle].  Closing twice closes once. *)
Theorem move_assign_conserves_ownership
    {OSState : Type} (api : Win32 OSState)
    (target source : ProcessHandle.t) (w : World OSState) :
  (exists w',
      (r <- ProcessHandle.move_assign api target source ;;
       ProcessHandle.dtor api (fst r) ;;;
       ProcessHandle.dtor api (snd r)) w = (Returned tt, w') /\
      w_calls w' = w_calls w ++ closes (ProcessHandle.handle_ target)
                             ++ closes (ProcessHandle.handle_ source)) /\
  ~ In (CallCloseHandle nullptr)
       (closes (ProcessHandle.handle_ target) ++ closes (ProcessHandle.handle_ source)) /\
  (this <- ProcessHandle.close api target ;; ProcessHandle.close api this) w
  = ProcessHandle.close api target w.
Proof.
  split; [|split].
  - unfold ProcessHandle.move_assign, ProcessHandle.dtor, ProcessHandle.close,
      ProcessHandle.call_CloseHandle, bind, ret, closes, record_call.
    destruct target as [t], source as [s]. cbn [ProcessHandle.handle_].
    destruct (t =? nullptr); cbn; destruct (s =? nullptr); cbn;
      eexists; (split; [reflexivity|]);
      cbn [w_calls]; rewrite <- ?app_assoc, ?app_nil_r; reflexivity.
  - unfold closes. intros Hin. apply in_app_or in Hin.
    destruct Hin as [Hin|Hin].
    + destruct (ProcessHandle.handle_ target =? nullptr) eqn:E; [destruct Hin|].
      destruct Hin as [Hin|[]]. injection Hin as Hin.
      rewrite Hin in E. discriminate E.
    + destruct (ProcessHandle.handle_ source =? nullptr) eqn:E; [destruct Hin|].
      destruct Hin as [Hin|[]]. injection Hin as Hin.
      rewrite Hin in E. discriminate E.
  - unfold ProcessHandle.close, ProcessHandle.call_CloseHandle, bind, ret.
    destruct (ProcessHandle.handle_ target =? nullptr) eqn:E; cbn [negb].
    + rewrite E. reflexivity.
    + reflexivity.
Qed.

(** ** The inspector, continued *)

Lemma wstring_of_c_str_no_NUL (buffer : list wchar_t) :
  ~ In 0 (wstring_of_c_str buffer).
Proof.
  induction buffer as [|c rest IH]; cbn [wstring_of_c_str]; [intros []|].
  destruct (c =? 0) eqn:E; [intros []|].
  intros [H|H]; [|exact (IH H)].
  subst c. discriminate E.
Qed.

Lemma tryGetProcessName_no_NUL {OSState : Type} (api : Win32 OSState)
    (process : HANDLE) (w : World OSState) :
  exists processName w',
    tryGetProcessName api process w = (Returned processName, w') /\
    ~ In 0 processName.
Proof.
  unfold_inspector.
  destruct (GetModuleBaseNameW api process MAX_PATH (w_os w)) as [[buffer|] st1];
    cbn [w_os record_call].
  - eexists; eexists. split; [reflexivity|]. apply wstring_of_c_str_no_NUL.
  - destruct (QueryFullProcessImageNameW api process 0 MAX_PATH st1)
      as [[buffer|] st2];
      (eexists; eexists; split; [reflexivity|]).
    + apply wstring_of_c_str_no_NUL.
    + vm_compute. intuition discriminate.
Qed.

(** X6.  When the handle is acquired but the memory-counter query fails,
    [queryProcess] returns "unavailable" without asking for a name, and it
    still closes the handle: its calls are [OpenProcess],
    [GetProcessMemoryInfo] and [CloseHandle] on the acquired handle, in
    that order and nothing else. *)
Theorem queryProcess_memory_query_failure
    {OSState : Type} (api : Win32 OSState) (pid : DWORD) (w : World OSState) :
  let opened := OpenProcess api 1040 false pid (w_os w) in
  let handle := fst opened in
  let queried := GetProcessMemoryInfo api handle (snd opened) in
  pid <> 0 ->
  handle <> nullptr ->
  fst queried = None ->
  queryProcess api pid w =
    (Returned None,
     add_calls [CallOpenProcess 1040 false pid;
                CallGetProcessMemoryInfo handle;
                CallCloseHandle handle]
       (CloseHandle api handle (snd queried)) w).
Proof.
  intros opened handle queried Hpid Hopen Hquery.
  subst queried handle opened.
  unfold_inspector.
  change ProcessHandle.minimal_access with 1040.
  apply N.eqb_neq in Hpid. rewrite Hpid.
  destruct (OpenProcess api 1040 false pid (w_os w)) as [h st1].
  cbn [fst snd] in *.
  apply N.eqb_neq in Hopen. rewrite Hopen. cbn.
  destruct (GetProcessMemoryInfo api h st1) as [r st2]. cbn [fst snd] in *.
  subst r. cbn. rewrite Hopen. cbn.
  unfold add_calls, record_call. cbn [w_os w_calls w_wcout w_cerr].
  rewrite <- !app_assoc. reflexivity.
Qed.

Lemma queryProcess_memory_query_failure_witness :
  queryProcess (stub_api stub_protected) 612 initial_world =
    (Returned None,
     {| w_os := 0;
        w_calls := [CallOpenProcess 1040 false 612;
                    CallGetProcessMemoryInfo 77;
                    CallCloseHandle 77];
        w_wcout := []; w_cerr := EmptyString |}).
Proof.
  rewrite (queryProcess_memory_query_failure (stub_api stub_protected) 612 initial_world).
  - reflexivity.
  - discriminate.
  - discriminate.
  - reflexivity.
Defined.

(** X7.  [queryProcess] returns a record exactly when the identifier is
    not 0, [OpenProcess] answers a handle and [GetProcessMemoryInfo]
    succeeds on it; nothing else decides availability, name resolution in
    particular does not. *)
Theorem queryProcess_available_iff
    {OSState : Type} (api : Win32 OSState) (pid : DWORD) (w : World OSState) :
  let opened := OpenProcess api 1040 false pid (w_os w) in
  let queried := GetProcessMemoryInfo api (fst opened) (snd opened) in
  (exists info w', queryProcess api pid w = (Returned (Some info), w')) <->
  (pid <> 0 /\ fst opened <> nullptr /\ fst queried <> None).
Proof.
  intros opened queried. subst queried opened.
  unfold_inspector.
  change ProcessHandle.minimal_access with 1040.
  destruct (pid =? 0) eqn:Epid.
  { apply N.eqb_eq in Epid. split.
    - intros (info & w' & H). discriminate H.
    - intros (H & _). contradiction. }
  apply N.eqb_neq in Epid.
  destruct (OpenProcess api 1040 false pid (w_os w)) as [h st1].
  cbn [fst snd].
  destruct (h =? nullptr) eqn:Eh; cbn.
  { apply N.eqb_eq in Eh. split.
    - intros (info & w' & H). discriminate H.
    - intros (_ & H & _). contradiction. }
  rewrite Eh. cbn.
  apply N.eqb_neq in Eh.
  destruct (GetProcessMemoryInfo api h st1) as [[pmc|] st2]; cbn.
  - split; [intros _; repeat split; try assumption; discriminate|].
    intros _.
    destruct (GetModuleBaseNameW api h MAX_PATH st2) as [[buffer|] st3]; cbn;
      [eauto|].
    destruct (QueryFullProcessImageNameW api h 0 MAX_PATH st3) as [[buffer|] st4];
      cbn; eauto.
  - split.
    + intros (info & w' & H). discriminate H.
    + intros (_ & _ & H). contradiction.
Qed.

(** X8.  A record [queryProcess] returns carries the identifier it was
    asked about, which is not 0, the two counters exactly as
    [GetProcessMemoryInfo] reported them, and a name without a NUL
    character. *)
Theorem queryProcess_record_fields
    {OSState : Type} (api : Win32 OSState) (processId : DWORD)
    (w w' : World OSState) (info : ProcessInfo) :
  queryProcess api processId w = (Returned (Some info), w') ->
  let opened := OpenProcess api 1040 false processId (w_os w) in
  pid info = processId /\
  pid info <> 0 /\
  ~ In 0 (name info) /\
  exists pmc,
    fst (GetProcessMemoryInfo api (fst opened) (snd opened)) = Some pmc /\
    workingSetBytes info = WorkingSetSize pmc /\
    privateBytes info = PrivateUsage pmc.
Proof.
  intros Hrun opened. subst opened.
  unfold queryProcess in Hrun.
  destruct (processId =? 0) eqn:Epid; [discriminate Hrun|].
  apply N.eqb_neq in Epid.
  unfold bind at 1 in Hrun. rewrite open_run in Hrun.
  change ProcessHandle.minimal_access with 1040 in Hrun.
  destruct (OpenProcess api 1040 false processId (w_os w)) as [h st1].
  cbn [fst snd] in *.
  destruct (h =? nullptr) eqn:Eh; [discriminate Hrun|].
  unfold scope_exit, bind at 1, call_GetProcessMemoryInfo in Hrun.
  cbn [w_os record_call ProcessHandle.get ProcessHandle.handle_] in Hrun.
  destruct (GetProcessMemoryInfo api h st1) as [[pmc|] st2].
  - unfold bind at 1 in Hrun.
    match type of Hrun with
    | context [tryGetProcessName api h ?w0] =>
        destruct (tryGetProcessName_no_NUL api h w0)
          as (processName & w2 & Hname & HnoNUL)
    end.
    rewrite Hname in Hrun. unfold ret in Hrun.
    destruct (ProcessHandle.optional_dtor api (Some (ProcessHandle.mk h)) w2)
      as [[[]| |] w3]; try discriminate Hrun.
    injection Hrun as <- _.
    cbn [pid name workingSetBytes privateBytes].
    repeat split; try assumption. exists pmc. repeat split.
  - unfold ret in Hrun.
    match type of Hrun with
    | context [ProcessHandle.optional_dtor api ?o ?w0] =>
        destruct (ProcessHandle.optional_dtor api o w0) as [[[]| |] w3]
    end; discriminate Hrun.
Qed.

Lemma queryProcess_record_fields_witness :
  exists info w',
    queryProcess (stub_api stub_app) 200 initial_world = (Returned (Some info), w') /\
    pid info = 200 /\ pid info <> 0 /\ ~ In 0 (name info).
Proof.
  assert (Hrun : queryProcess (stub_api stub_app) 200 initial_world
                 = (Returned (Some (mkProcessInfo 200 (L "app.exe") 52428800 20971520)),
                    snd (queryProcess (stub_api stub_app) 200 initial_world)))
    by (vm_compute; reflexivity).
  destruct (queryProcess_record_fields (stub_api stub_app) 200 initial_world _ _ Hrun)
    as (Hpid & Hnonzero & Hname & _).
  eexists; eexists. split; [exact Hrun|].
  split; [exact Hpid|]. split; [exact Hnonzero|exact Hname].
Defined.

(** ** The collection pass, continued *)

Lemma collectProcesses_unfold {OSState : Type} (api : Win32 OSState)
    (fuel : nat) (w : World OSState) :
  collectProcesses api fuel w =
    (pids <- enumerateProcessIds api fuel ;; filter_map_M (queryProcess api) pids) w.
Proof.
  unfold collectProcesses. unfold bind at 1 3.
  destruct (enumerateProcessIds api fuel w) as [[pids| |] w1]; try reflexivity.
  rewrite for_each_push_back. unfold bind, ret.
  destruct (filter_map_M (queryProcess api) pids w1) as [[rest| |] w2]; reflexivity.
Qed.

Lemma queryProcess_some_pid {OSState : Type} (api : Win32 OSState)
    (processId : DWORD) (w w' : World OSState) (info : ProcessInfo) :
  queryProcess api processId w = (Returned (Some info), w') ->
  pid info = processId /\ processId <> 0.
Proof.
  unfold_inspector.
  destruct (processId =? 0) eqn:Epid; [discriminate|].
  apply N.eqb_neq in Epid.
  destruct (OpenProcess api ProcessHandle.minimal_access false processId (w_os w))
    as [h st1].
  destruct (h =? nullptr) eqn:Eh; cbn; [discriminate|].
  rewrite Eh. cbn.
  destruct (GetProcessMemoryInfo api h st1) as [[pmc|] st2]; cbn; [|discriminate].
  destruct (GetModuleBaseNameW api h MAX_PATH st2) as [[buffer|] st3]; cbn.
  - intros H. injection H as <- _. split; [reflexivity|exact Epid].
  - destruct (QueryFullProcessImageNameW api h 0 MAX_PATH st3) as [[buffer|] st4];
      cbn; intros H; injection H as <- _; (split; [reflexivity|exact Epid]).
Qed.

Lemma filter_map_M_subsequence {OSState : Type} (api : Win32 OSState)
    (pids : list DWORD) :
  forall (w w' : World OSState) (records : list ProcessInfo),
    filter_map_M (queryProcess api) pids w = (Returned records, w') ->
    Subsequence (map pid records) pids /\
    Forall (fun info => pid info <> 0) records.
Proof.
  induction pids as [|processId pids IH]; intros w w' records Hrun.
  - cbn in Hrun. injection Hrun as <- _. split; constructor.
  - cbn [filter_map_M] in Hrun. unfold bind at 1 in Hrun.
    destruct (queryProcess api processId w) as [[o| |] w1] eqn:Eq;
      try discriminate Hrun.
    unfold bind in Hrun.
    destruct (filter_map_M (queryProcess api) pids w1) as [[rest| |] w2] eqn:Erest;
      try discriminate Hrun.
    destruct (IH _ _ _ Erest) as [Hsub Hall].
    unfold ret in Hrun. injection Hrun as <- _.
    destruct o as [info|].
    + destruct (queryProcess_some_pid api processId w w1 info Eq) as [Hpid Hnz].
      cbn [map]. rewrite Hpid. split.
      * apply Subsequence_take. exact Hsub.
      * constructor; [rewrite Hpid; exact Hnz|exact Hall].
    + split; [apply Subsequence_skip; exact Hsub|exact Hall].
Qed.

(** X9.  The identifiers of the records a collection pass returns are the
    enumerated identifiers with some left out: every record belongs to an
    enumerated identifier, the enumeration order is kept, no enumerated
    identifier yields two records, and no record has the identifier 0. *)
Theorem collectProcesses_record_ids
    {OSState : Type} (api : Win32 OSState) (fuel : nat)
    (w w1 w' : World OSState) (pids : list DWORD) (records : list ProcessInfo) :
  enumerateProcessIds api fuel w = (Returned pids, w1) ->
  collectProcesses api fuel w = (Returned records, w') ->
  Subsequence (map pid records) pids /\
  Forall (fun info => pid info <> 0) records.
Proof.
  intros Henum Hcollect.
  rewrite collectProcesses_unfold in Hcollect.
  unfold bind in Hcollect. rewrite Henum in Hcollect.
  exact (filter_map_M_subsequence api pids w1 w' records Hcollect).
Qed.

Lemma collectProcesses_record_ids_witness :
  Subsequence [200] [0; 100; 200].
Proof.
  destruct (collectProcesses_record_ids (stub_api stub_app) 1 initial_world
              (snd (enumerateProcessIds (stub_api stub_app) 1 initial_world))
              (snd (collectProcesses (stub_api stub_app) 1 initial_world))
              [0; 100; 200]
              [mkProcessInfo 200 (L "app.exe") 52428800 20971520])
    as [Hsub _].
  - vm_compute. reflexivity.
  - vm_compute. reflexivity.
  - exact Hsub.
Defined.

Section Handles.
Context {OSState : Type} (api : Win32 OSState).

Lemma remove_one_head (h : HANDLE) (hs : list HANDLE) :
  remove_one h (h :: hs) = hs.
Proof. cbn [remove_one]. rewrite N.eqb_refl. reflexivity. Qed.

Lemma enumerate_loop_handles (fuel : nat) :
  forall (pids : list DWORD) (w : World (OSState * list HANDLE)),
    handles_in_use (snd (enumerate_loop (tracked api) fuel pids w))
    = handles_in_use w.
Proof.
  induction fuel as [|fuel IH]; intros pids w; [reflexivity|].
  cbn [enumerate_loop]. unfold bind at 1. unfold call_EnumProcesses.
  cbn [tracked EnumProcesses].
  destruct (EnumProcesses api (to_DWORD (size pids * sizeof_DWORD)) (fst (w_os w)))
    as [reply st].
  destruct (enum_ok reply); cbn [negb].
  - destruct (enum_bytes reply / sizeof_DWORD
              <? size (overwrite (enum_written reply) pids)).
    + reflexivity.
    + rewrite IH. reflexivity.
  - reflexivity.
Qed.

Lemma queryProcess_handles (processId : DWORD) (w : World (OSState * list HANDLE)) :
  handles_in_use (snd (queryProcess (tracked api) processId w)) = handles_in_use w.
Proof.
  unfold handles_in_use. unfold_inspector.
  destruct (processId =? 0); [reflexivity|].
  cbn [tracked OpenProcess CloseHandle GetProcessMemoryInfo GetModuleBaseNameW
         QueryFullProcessImageNameW].
  destruct (OpenProcess api ProcessHandle.minimal_access false processId (fst (w_os w)))
    as [h st1].
  destruct (h =? nullptr) eqn:Eh; cbn; [reflexivity|].
  rewrite Eh. cbn.
  destruct (GetProcessMemoryInfo api h st1) as [[pmc|] st2]; cbn.
  - destruct (GetModuleBaseNameW api h MAX_PATH st2) as [[buffer|] st3]; cbn.
    + rewrite N.eqb_refl. reflexivity.
    + destruct (QueryFullProcessImageNameW api h 0 MAX_PATH st3) as [[buffer|] st4];
        cbn; rewrite N.eqb_refl; reflexivity.
  - rewrite N.eqb_refl. reflexivity.
Qed.

Lemma filter_map_M_handles (pids : list DWORD) :
  forall w : World (OSState * list HANDLE),
    handles_in_use (snd (filter_map_M (queryProcess (tracked api)) pids w))
    = handles_in_use w.
Proof.
  induction pids as [|processId pids IH]; intros w; [reflexivity|].
  cbn [filter_map_M]. unfold bind at 1.
  pose proof (queryProcess_handles processId w) as Hq.
  destruct (queryProcess (tracked api) processId w) as [[o| |] w1];
    cbn [snd] in Hq; try exact Hq.
  unfold bind. pose proof (IH w1) as Hrest.
  destruct (filter_map_M (queryProcess (tracked api)) pids w1) as [[rest| |] w2];
    cbn [snd] in *; unfold ret; cbn [snd]; congruence.
Qed.
End Handles.

(** X10.  No handle outlives the program.  Over any system, with the
    handles in use kept beside its state ([OpenProcess] adds the handle it
    answers, [CloseHandle] takes it away), a collection pass and a whole
    [runSniffer] run end with exactly the handles in use they started with,
    whether they return, report a failed enumeration or are cut short. *)
Theorem no_handle_outlives_the_run
    {OSState : Type} (api : Win32 OSState)
    (std_sort : (ProcessInfo -> ProcessInfo -> bool) -> list ProcessInfo -> list ProcessInfo)
    (put_megabytes : Bytes -> wstring)
    (fuel : nat) (topN : size_t) (w : World (OSState * list HANDLE)) :
  handles_in_use (snd (collectProcesses (tracked api) fuel w)) = handles_in_use w /\
  handles_in_use (snd (runSniffer (tracked api) std_sort put_megabytes fuel topN w))
  = handles_in_use w.
Proof.
  assert (Hcollect :
            handles_in_use (snd (collectProcesses (tracked api) fuel w))
            = handles_in_use w).
  { rewrite collectProcesses_unfold. unfold bind, enumerateProcessIds.
    pose proof (enumerate_loop_handles api fuel (repeat 0 (N.to_nat PID_VECT_SIZE)) w)
      as Henum.
    destruct (enumerate_loop (tracked api) fuel (repeat 0 (N.to_nat PID_VECT_SIZE)) w)
      as [[pids| |] w1]; cbn [snd] in *; try exact Henum.
    rewrite filter_map_M_handles. exact Henum. }
  split; [exact Hcollect|].
  unfold runSniffer, try_catch. unfold bind at 1.
  destruct (collectProcesses (tracked api) fuel w) as [[processes|e|] w1];
    cbn [snd] in Hcollect.
  - unfold bind. rewrite printTopByWorkingSet_run. exact Hcollect.
  - destruct e; exact Hcollect.
  - exact Hcollect.
Qed.

Section Streams.
Context {OSState : Type} (api : Win32 OSState).

Lemma enumerate_loop_streams (fuel : nat) :
  forall (pids : list DWORD) (w : World OSState),
    w_wcout (snd (enumerate_loop api fuel pids w)) = w_wcout w /\
    w_cerr (snd (enumerate_loop api fuel pids w)) = w_cerr w.
Proof.
  induction fuel as [|fuel IH]; intros pids w; [split; reflexivity|].
  cbn [enumerate_loop]. unfold bind at 1 3. unfold call_EnumProcesses.
  destruct (EnumProcesses api (to_DWORD (size pids * sizeof_DWORD)) (w_os w))
    as [reply st].
  destruct (enum_ok reply); cbn [negb].
  - destruct (enum_bytes reply / sizeof_DWORD
              <? size (overwrite (enum_written reply) pids)).
    + split; reflexivity.
    + match goal with
      | |- context [enumerate_loop api fuel ?b ?w0] =>
          destruct (IH b w0) as [Hout Herr]
      end.
      rewrite Hout, Herr. split; reflexivity.
  - split; reflexivity.
Qed.

Lemma queryProcess_streams (processId : DWORD) (w : World OSState) :
  w_wcout (snd (queryProcess api processId w)) = w_wcout w /\
  w_cerr (snd (queryProcess api processId w)) = w_cerr w.
Proof.
  unfold_inspector.
  destruct (processId =? 0); [split; reflexivity|].
  destruct (OpenProcess api ProcessHandle.minimal_access false processId (w_os w))
    as [h st1].
  destruct (h =? nullptr) eqn:Eh; cbn; [split; reflexivity|].
  rewrite Eh. cbn.
  destruct (GetProcessMemoryInfo api h st1) as [[pmc|] st2]; cbn;
    [|split; reflexivity].
  destruct (GetModuleBaseNameW api h MAX_PATH st2) as [[buffer|] st3]; cbn;
    [split; reflexivity|].
  destruct (QueryFullProcessImageNameW api h 0 MAX_PATH st3) as [[buffer|] st4];
    cbn; split; reflexivity.
Qed.

Lemma filter_map_M_streams (pids : list DWORD) :
  forall w : World OSState,
    w_wcout (snd (filter_map_M (queryProcess api) pids w)) = w_wcout w /\
    w_cerr (snd (filter_map_M (queryProcess api) pids w)) = w_cerr w.
Proof.
  induction pids as [|processId pids IH]; intros w; [split; reflexivity|].
  cbn [filter_map_M]. unfold bind at 1 3.
  pose proof (queryProcess_streams processId w) as Hq.
  destruct (queryProcess api processId w) as [[o| |] w1];
    cbn [snd] in Hq; try exact Hq.
  unfold bind. pose proof (IH w1) as Hrest.
  destruct (filter_map_M (queryProcess api) pids w1) as [[rest| |] w2];
    cbn [snd] in *; unfold ret; cbn [snd];
    destruct Hq as [Hq1 Hq2]; destruct Hrest as [Hr1 Hr2]; split; congruence.
Qed.

Lemma collectProcesses_streams (fuel : nat) (w : World OSState) :
  w_wcout (snd (collectProcesses api fuel w)) = w_wcout w /\
  w_cerr (snd (collectProcesses api fuel w)) = w_cerr w.
Proof.
  rewrite collectProcesses_unfold. unfold bind, enumerateProcessIds.
  pose proof (enumerate_loop_streams fuel (repeat 0 (N.to_nat PID_VECT_SIZE)) w)
    as Henum.
  destruct (enumerate_loop api fuel (repeat 0 (N.to_nat PID_VECT_SIZE)) w)
    as [[pids| |] w1]; cbn [snd] in *; try exact Henum.
  destruct Henum as [Hout Herr].
  destruct (filter_map_M_streams pids w1) as [Hout' Herr'].
  split; congruence.
Qed.

(** With no process that can be opened the filter-map keeps nothing. *)
Lemma filter_map_M_nothing_opens (pids : list DWORD) :
  (forall processId st,
      fst (OpenProcess api ProcessHandle.minimal_access false processId st) = nullptr) ->
  forall w : World OSState,
    fst (filter_map_M (queryProcess api) pids w) = Returned [].
Proof.
  intros Hdenied.
  induction pids as [|processId pids IH]; intros w; [reflexivity|].
  cbn [filter_map_M]. unfold bind at 1.
  assert (Hq : exists w1, queryProcess api processId w = (Returned None, w1)).
  { unfold queryProcess. destruct (processId =? 0); [eexists; reflexivity|].
    unfold bind. rewrite open_run. rewrite Hdenied. eexists; reflexivity. }
  destruct Hq as [w1 ->].
  unfold bind. pose proof (IH w1) as Hrest.
  destruct (filter_map_M (queryProcess api) pids w1) as [[rest| |] w2];
    cbn [fst] in Hrest; try discriminate Hrest.
  injection Hrest as ->. reflexivity.
Qed.
End Streams.

(** ** The top level, continued *)

(** X11.  [runSniffer] never lets an exception escape, and it writes to
    exactly one of the two streams: when the collection pass returns, the
    exit status is [EXIT_SUCCESS], the report of the collected records is
    appended to the output stream and the error stream is untouched; when
    the pass throws, the status is [EXIT_FAILURE], one line made of a
    prefix, the message of the exception and a newline is appended to the
    error stream and the output stream is untouched. *)
Theorem runSniffer_exit_status
    {OSState : Type} (api : Win32 OSState)
    (std_sort : (ProcessInfo -> ProcessInfo -> bool) -> list ProcessInfo -> list ProcessInfo)
    (put_megabytes : Bytes -> wstring)
    (fuel : nat) (topN : size_t) (w : World OSState) :
  (forall e, fst (runSniffer api std_sort put_megabytes fuel topN w) <> Thrown e) /\
  match fst (collectProcesses api fuel w) with
  | Returned processes =>
      exists w',
        runSniffer api std_sort put_megabytes fuel topN w = (Returned EXIT_SUCCESS, w') /\
        w_wcout w' = w_wcout w ++ report std_sort put_megabytes processes topN /\
        w_cerr w' = w_cerr w
  | Thrown e =>
      exists w' prefix,
        runSniffer api std_sort put_megabytes fuel topN w = (Returned EXIT_FAILURE, w') /\
        w_wcout w' = w_wcout w /\
        w_cerr w' = (w_cerr w ++ prefix ++ what_of e ++ newline_narrow)%string /\
        (prefix = "Win32 error: " \/ prefix = "Error: ")%string
  | OutOfFuel =>
      fst (runSniffer api std_sort put_megabytes fuel topN w) = OutOfFuel
  end.
Proof.
  destruct (collectProcesses_streams api fuel w) as [Hout Herr].
  destruct (collectProcesses api fuel w) as [[processes|e|] w1] eqn:E;
    cbn [fst snd] in *.
  - rewrite (runSniffer_run api std_sort put_megabytes fuel topN w w1 processes E).
    split; [intros e; discriminate|].
    eexists. split; [reflexivity|].
    unfold set_wcout. cbn [w_wcout w_cerr]. rewrite Hout, Herr.
    split; reflexivity.
  - assert (Hrun : exists prefix,
               runSniffer api std_sort put_megabytes fuel topN w =
                 (Returned EXIT_FAILURE,
                  set_cerr (w_cerr w1 ++ prefix ++ what_of e ++ newline_narrow)%string w1) /\
               (prefix = "Win32 error: " \/ prefix = "Error: ")%string).
    { unfold runSniffer, try_catch, bind. rewrite E.
      destruct e as [what code|what]; eexists; (split; [reflexivity|]);
        [left|right]; reflexivity. }
    destruct Hrun as (prefix & Hrun & Hprefix). rewrite Hrun.
    split; [intros e'; discriminate|].
    eexists; exists prefix. split; [reflexivity|].
    unfold set_cerr. cbn [w_wcout w_cerr]. rewrite Hout, Herr.
    split; [reflexivity|]. split; [reflexivity|exact Hprefix].
  - assert (Hrun : runSniffer api std_sort put_megabytes fuel topN w = (OutOfFuel, w1)).
    { unfold runSniffer, try_catch, bind. rewrite E. reflexivity. }
    rewrite Hrun. split; [intros e; discriminate|reflexivity].
Qed.

(** X12.  Partial results are preferred to none: when the enumeration
    succeeds but no process at all can be opened, the collection pass
    returns the empty collection, and [runSniffer] succeeds and prints the
    single line ["No processes available."], whatever count was asked
    for. *)
Theorem runSniffer_nothing_inspectable
    {OSState : Type} (api : Win32 OSState)
    (std_sort : (ProcessInfo -> ProcessInfo -> bool) -> list ProcessInfo -> list ProcessInfo)
    (put_megabytes : Bytes -> wstring)
    (fuel : nat) (topN : size_t) (w w1 : World OSState) (pids : list DWORD) :
  enumerateProcessIds api fuel w = (Returned pids, w1) ->
  (forall processId st, fst (OpenProcess api 1040 false processId st) = nullptr) ->
  fst (collectProcesses api fuel w) = Returned [] /\
  exists w',
    runSniffer api std_sort put_megabytes fuel topN w = (Returned EXIT_SUCCESS, w') /\
    w_wcout w' = w_wcout w ++ L "No processes available." ++ newline /\
    w_cerr w' = w_cerr w.
Proof.
  intros Henum Hdenied.
  assert (Hcollect : fst (collectProcesses api fuel w) = Returned []).
  { rewrite collectProcesses_unfold. unfold bind. rewrite Henum.
    apply filter_map_M_nothing_opens. exact Hdenied. }
  split; [exact Hcollect|].
  destruct (collectProcesses_streams api fuel w) as [Hout Herr].
  destruct (collectProcesses api fuel w) as [r w2] eqn:E.
  cbn [fst snd] in *. subst r.
  rewrite (runSniffer_run api std_sort put_megabytes fuel topN w w2 [] E).
  eexists. split; [reflexivity|].
  unfold set_wcout, report. cbn [w_wcout w_cerr]. rewrite Hout, Herr.
  split; reflexivity.
Qed.

Lemma runSniffer_nothing_inspectable_witness :
  exists w',
    runSniffer (stub_api stub_5000) (@insertion_sort _) fixed2_megabytes 4 10
      initial_world = (Returned EXIT_SUCCESS, w') /\
    w_wcout w' = L "No processes available." ++ newline.
Proof.
  destruct (runSniffer_nothing_inspectable (stub_api stub_5000) (@insertion_sort _)
              fixed2_megabytes 4 10 initial_world
              (snd (enumerateProcessIds (stub_api stub_5000) 4 initial_world))
              (map N.of_nat (seq 1 5000)))
    as (_ & w' & Hrun & Hout & _).
  - vm_compute. reflexivity.
  - intros processId st. reflexivity.
  - exists w'. split; [exact Hrun|exact Hout].
Defined.

(** ** The report, continued *)

Lemma put_left_size (w : N) (s : wstring) :
  size (put_left w s) = N.max w (size s).
Proof.
  unfold put_left, size. rewrite length_app, repeat_length. lia.
Qed.

Lemma displayName_size (p : ProcessInfo) : size (displayName p) <= 30.
Proof.
  destruct (N.lt_ge_cases MAX_NAME_LEN (size (name p))) as [Hlong|Hshort].
  - destruct (displayName_long p Hlong) as [_ ->]. lia.
  - rewrite (displayName_short p Hshort). unfold MAX_NAME_LEN in Hshort. lia.
Qed.

(** X13.  The table keeps its columns.  [std::left << std::setw (w)] pads
    on the right and never cuts, so a field is its text followed by spaces
    up to the width.  A displayed name has at most 30 characters, so the
    name column is always exactly 30 wide (a truncated name fills it
    without a separating space).  Every row, its newline included, has at
    least 71 characters, and exactly 71 when the identifier has at most 8
    digits and both sizes at most 16 characters. *)
Theorem table_row_columns (put_megabytes : Bytes -> wstring) (p : ProcessInfo) :
  (forall w s, firstn (length s) (put_left w s) = s /\
               size (put_left w s) = N.max w (size s) /\
               Forall (fun c => c = space) (skipn (length s) (put_left w s))) /\
  size (displayName p) <= 30 /\
  size (put_left 30 (displayName p)) = 30 /\
  71 <= size (table_row put_megabytes p) /\
  (size (to_wstring (pid p)) <= 8 ->
   size (put_megabytes (workingSetBytes p)) <= 16 ->
   size (put_megabytes (privateBytes p)) <= 16 ->
   size (table_row put_megabytes p) = 71).
Proof.
  assert (Hrow : size (table_row put_megabytes p)
                 = N.max 8 (size (to_wstring (pid p)))
                   + N.max 30 (size (displayName p))
                   + N.max 16 (size (put_megabytes (workingSetBytes p)))
                   + N.max 16 (size (put_megabytes (privateBytes p))) + 1).
  { unfold table_row.
    rewrite <- !put_left_size. unfold size, newline.
    rewrite !length_app. cbn [length]. lia. }
  pose proof (displayName_size p) as Hname.
  split; [|split; [exact Hname|split; [|split]]].
  - intros w s. split; [|split].
    + unfold put_left. rewrite firstn_app, firstn_all, Nat.sub_diag.
      cbn [firstn]. apply app_nil_r.
    + apply put_left_size.
    + unfold put_left. rewrite skipn_app, skipn_all, Nat.sub_diag.
      cbn [skipn app]. apply Forall_forall. intros c Hc.
      apply repeat_spec in Hc. exact Hc.
  - rewrite put_left_size. lia.
  - rewrite Hrow. lia.
  - intros Hpid Hws Hpb. rewrite Hrow. lia.
Qed.

Lemma table_row_columns_witness :
  size (table_row fixed2_megabytes long_named) = 71.
Proof.
  destruct (table_row_columns fixed2_megabytes long_named) as (_ & _ & _ & _ & Hexact).
  apply Hexact; vm_compute; discriminate.
Defined.

Lemma NoDup_map_injective {A B : Type} (f : A -> B) (l : list A) :
  NoDup (map f l) ->
  forall x y, In x l -> In y l -> f x = f y -> x = y.
Proof.
  induction l as [|a l IH]; intros Hnd x y Hx Hy Hxy; [destruct Hx|].
  cbn [map] in Hnd. inversion Hnd as [|b m Hnotin Hnd']; subst.
  destruct Hx as [<-|Hx], Hy as [<-|Hy].
  - reflexivity.
  - exfalso. apply Hnotin. rewrite Hxy. apply in_map. exact Hy.
  - exfalso. apply Hnotin. rewrite <- Hxy. apply in_map. exact Hx.
  - apply IH; assumption.
Qed.

(** Two descending arrangements of the same records, with pairwise
    different working sets, are the same list. *)
Lemma descending_unique (l1 : list ProcessInfo) :
  forall l2,
    StronglySorted (fun a b => workingSetBytes b <= workingSetBytes a) l1 ->
    StronglySorted (fun a b => workingSetBytes b <= workingSetBytes a) l2 ->
    Permutation l1 l2 ->
    NoDup (map workingSetBytes l1) ->
    l1 = l2.
Proof.
  induction l1 as [|a l1 IH]; intros l2 S1 S2 Hperm Hnd.
  - apply Permutation_nil in Hperm. symmetry. exact Hperm.
  - destruct l2 as [|b l2].
    { apply Permutation_sym, Permutation_nil in Hperm. discriminate Hperm. }
    inversion S1 as [|a' l1' S1' F1]; subst.
    inversion S2 as [|b' l2' S2' F2]; subst.
    rewrite Forall_forall in F1, F2.
    assert (Hb : In b (a :: l1)).
    { apply (Permutation_in b (Permutation_sym Hperm)). left. reflexivity. }
    assert (Ha : In a (b :: l2)).
    { apply (Permutation_in a Hperm). left. reflexivity. }
    assert (Hle1 : workingSetBytes b <= workingSetBytes a).
    { destruct Hb as [<-|Hb]; [lia|apply F1; exact Hb]. }
    assert (Hle2 : workingSetBytes a <= workingSetBytes b).
    { destruct Ha as [<-|Ha]; [lia|apply F2; exact Ha]. }
    assert (Hab : a = b).
    { apply (NoDup_map_injective workingSetBytes (a :: l1) Hnd);
        [left; reflexivity|exact Hb|lia]. }
    subst b. f_equal.
    apply IH; try assumption.
    + apply (Permutation_cons_inv Hperm).
    + cbn [map] in Hnd. inversion Hnd. assumption.
Qed.

(** X14.  The order in which the records were collected does not show in
    the report: for a conforming sort, two collections with the same
    records in different orders give the same report for every count,
    provided no two records have the same working-set size (the order of
    records with equal sizes is whatever [std::sort] leaves). *)
Theorem report_independent_of_order
    (std_sort : (ProcessInfo -> ProcessInfo -> bool) -> list ProcessInfo -> list ProcessInfo)
    (put_megabytes : Bytes -> wstring)
    (processes processes' : list ProcessInfo) (topN : size_t) :
  sort_conforms std_sort ->
  Permutation processes processes' ->
  NoDup (map workingSetBytes processes) ->
  report std_sort put_megabytes processes topN
  = report std_sort put_megabytes processes' topN.
Proof.
  intros Hsort Hperm Hnd.
  destruct (Hsort by_working_set processes by_working_set_strict_weak_order)
    as [Hp1 Hs1].
  destruct (Hsort by_working_set processes' by_working_set_strict_weak_order)
    as [Hp2 Hs2].
  apply sorted_descending in Hs1, Hs2.
  assert (Heq : std_sort by_working_set processes
                = std_sort by_working_set processes').
  { apply descending_unique; try assumption.
    - apply perm_trans with processes; [apply Permutation_sym; exact Hp1|].
      apply perm_trans with processes'; assumption.
    - apply (Permutation_NoDup (l := map workingSetBytes processes)); [|exact Hnd].
      apply Permutation_map. exact Hp1. }
  unfold report.
  destruct processes as [|p l], processes' as [|p' l'].
  - reflexivity.
  - apply Permutation_nil in Hperm. discriminate Hperm.
  - apply Permutation_sym, Permutation_nil in Hperm. discriminate Hperm.
  - cbv zeta. rewrite Heq. reflexivity.
Qed.

Lemma report_independent_of_order_witness :
  report (@insertion_sort _) fixed2_megabytes
    [ mkProcessInfo 4 (L "small.exe") 10485760 1048576;
      mkProcessInfo 8 (L "big.exe") 52428800 2097152 ] 5
  = report (@insertion_sort _) fixed2_megabytes
      [ mkProcessInfo 8 (L "big.exe") 52428800 2097152;
        mkProcessInfo 4 (L "small.exe") 10485760 1048576 ] 5.
Proof.
  apply report_independent_of_order.
  - exact insertion_sort_conforms.
  - apply perm_swap.
  - repeat constructor; cbn; intuition discriminate.
Defined.

(** ** The order of the calls *)

Section Opens.
Context {OSState : Type} (api : Win32 OSState).

Lemma queryProcess_opens (processId : DWORD) (w : World OSState) :
  exists new,
    w_calls (snd (queryProcess api processId w)) = w_calls w ++ new /\
    filter is_OpenProcess new =
      if processId =? 0 then [] else [CallOpenProcess 1040 false processId].
Proof.
  unfold_inspector. change ProcessHandle.minimal_access with 1040.
  destruct (processId =? 0).
  { exists []. rewrite app_nil_r. split; reflexivity. }
  destruct (OpenProcess api 1040 false processId (w_os w)) as [h st1].
  destruct (h =? nullptr) eqn:Eh; cbn.
  { eexists. split; reflexivity. }
  rewrite Eh. cbn.
  destruct (GetProcessMemoryInfo api h st1) as [[pmc|] st2]; cbn.
  - destruct (GetModuleBaseNameW api h MAX_PATH st2) as [[buffer|] st3]; cbn.
    + eexists. split; [rewrite <- !app_assoc; reflexivity|reflexivity].
    + destruct (QueryFullProcessImageNameW api h 0 MAX_PATH st3) as [[buffer|] st4];
        cbn; eexists; (split; [rewrite <- !app_assoc; reflexivity|reflexivity]).
  - eexists. split; [rewrite <- !app_assoc; reflexivity|reflexivity].
Qed.

Lemma filter_map_M_opens (pids : list DWORD) :
  forall w : World OSState,
    fst (filter_map_M (queryProcess api) pids w) <> OutOfFuel /\
    exists new,
      w_calls (snd (filter_map_M (queryProcess api) pids w)) = w_calls w ++ new /\
      filter is_OpenProcess new =
        map (CallOpenProcess 1040 false) (filter (fun p => negb (p =? 0)) pids).
Proof.
  induction pids as [|processId pids IH]; intros w.
  - split; [discriminate|]. exists []. rewrite app_nil_r. split; reflexivity.
  - cbn [filter_map_M]. unfold bind, ret.
    destruct (queryProcess_opens processId w) as (new1 & Hcalls1 & Hopens1).
    destruct (queryProcess_returns api processId w) as (o & w1 & Hq).
    rewrite Hq in *. cbn [snd] in Hcalls1.
    destruct (IH w1) as (Hfuel & new2 & Hcalls2 & Hopens2).
    destruct (filter_map_M (queryProcess api) pids w1) as [[rest| |] w2];
      cbn [fst snd] in *; try contradiction;
      (split; [discriminate|]);
      exists (new1 ++ new2);
      (split; [rewrite Hcalls2, Hcalls1, app_assoc; reflexivity|]);
      rewrite filter_app, Hopens1, Hopens2; cbn [filter];
      destruct (processId =? 0); reflexivity.
Qed.
End Opens.

(** X15.  Once the identifiers are enumerated, the collection pass asks
    [OpenProcess] for every enumerated identifier other than 0 exactly
    once, in enumeration order, each time with access 0x410 and without
    inheritance; it never asks for the identifier 0 and makes no other
    [OpenProcess] call. *)
Theorem collectProcesses_opens_each_once
    {OSState : Type} (api : Win32 OSState) (fuel : nat)
    (w w1 : World OSState) (pids : list DWORD) :
  enumerateProcessIds api fuel w = (Returned pids, w1) ->
  exists records w' new,
    collectProcesses api fuel w = (Returned records, w') /\
    w_calls w' = w_calls w1 ++ new /\
    filter is_OpenProcess new =
      map (CallOpenProcess 1040 false) (filter (fun p => negb (p =? 0)) pids).
Proof.
  intros Henum.
  rewrite collectProcesses_unfold. unfold bind. rewrite Henum.
  destruct (filter_map_M_opens api pids w1) as (_ & new & Hcalls & Hopens).
  destruct (filter_map_M_queryProcess api pids w1) as (records & w' & Hrun & _).
  rewrite Hrun in *. cbn [snd] in Hcalls.
  exists records, w', new. split; [reflexivity|]. split; assumption.
Qed.

Lemma collectProcesses_opens_each_once_witness :
  exists records w',
    collectProcesses (stub_api stub_app) 1 initial_world = (Returned records, w') /\
    filter is_OpenProcess (w_calls w')
    = [CallOpenProcess 1040 false 100; CallOpenProcess 1040 false 200].
Proof.
  destruct (collectProcesses_opens_each_once (stub_api stub_app) 1 initial_world
              (record_call (CallEnumProcesses 4096) 0 initial_world) [0; 100; 200])
    as (records & w' & new & Hrun & Hcalls & Hopens).
  - vm_compute. reflexivity.
  - exists records, w'. split; [exact Hrun|].
    rewrite Hcalls. cbn [record_call w_calls initial_world app].
    cbn [filter is_OpenProcess]. exact Hopens.
Defined.

(** ** The enumerator and the injected count *)

(** From [2 ^ 29] injected identifiers on, the list-backed primitive
    fills every buffer up to the twentieth doubling; the twenty-first
    request offers 0 bytes and the enumerator returns the empty list. *)
Lemma enumerateProcessIds_long_list
    (s : Stub) (ids : list DWORD) (fuel : nat) (w : World DWORD) :
  stub_ids s = Some ids ->
  2 ^ 29 <= size ids ->
  (20 < fuel)%nat ->
  enumerateProcessIds (stub_api s) fuel w =
    (Returned [], add_calls (enum_calls 0 21) (w_os w) w).
Proof.
  intros Hids Hlong Hfuel.
  assert (Hlast : count_at (stub_api s) 20 (w_os w) = 0).
  { unfold count_at. rewrite (stub_reply s ids Hids). cbn [enum_bytes].
    rewrite request_wrapped by lia.
    change (N.to_nat (0 / sizeof_DWORD)) with 0%nat. reflexivity. }
  unfold enumerateProcessIds.
  change (repeat 0 (N.to_nat PID_VECT_SIZE))
    with (buffer_before (stub_api s) 0 (w_os w)).
  pose proof (enumerate_loop_converges (stub_api s) 20 0%nat fuel (w_os w) w eq_refl)
    as H.
  cbn [Nat.add] in H.
  rewrite H; clear H.
  - rewrite Hlast, (stub_os_before s ids Hids). reflexivity.
  - intros i Hi. split.
    + rewrite (stub_reply s ids Hids). reflexivity.
    + rewrite (stub_count s ids Hids) by lia.
      pose proof (capacity_monotone i 19 ltac:(lia)) as Hcap.
      rewrite capacity_19 in Hcap. lia.
  - rewrite (stub_reply s ids Hids). reflexivity.
  - rewrite Hlast. apply capacity_positive.
  - exact Hfuel.
Qed.

Lemma huge_ids_size : size huge_ids = 2 ^ 29.
Proof.
  unfold huge_ids, size. rewrite repeat_length, N2Nat.id. reflexivity.
Qed.

(** C3, as stated, fails: with [2 ^ 29] injected identifiers the primitive
    does end up reporting a count below the grown capacity, and the loop
    terminates, but with the empty list, not with the injected count. *)
Lemma enumerateProcessIds_exact_count_counterexample :
  stub_ids stub_huge = Some huge_ids /\
  size huge_ids = 2 ^ 29 /\
  fst (enumerateProcessIds (stub_api stub_huge) 21 initial_world) = Returned [] /\
  ~ (forall (fuel : nat) (ids : list DWORD) (w' : World DWORD),
        enumerateProcessIds (stub_api stub_huge) fuel initial_world = (Returned ids, w') ->
        size ids = size huge_ids).
Proof.
  assert (Hrun : enumerateProcessIds (stub_api stub_huge) 21 initial_world =
                 (Returned [],
                  add_calls (enum_calls 0 21) (w_os initial_world) initial_world)).
  { apply (enumerateProcessIds_long_list stub_huge huge_ids).
    - reflexivity.
    - rewrite huge_ids_size. apply N.le_refl.
    - lia. }
  split; [reflexivity|]. split; [exact huge_ids_size|].
  split; [rewrite Hrun; reflexivity|].
  intros H. specialize (H _ _ _ Hrun). rewrite huge_ids_size in H.
  vm_compute in H. discriminate H.
Qed.

(** C3, amended.  [enumerateProcessIds] starts with a buffer of 1024
    entries and calls the primitive again and again: a reply whose count
    reaches the capacity makes it double the buffer and retry, and the
    first reply whose count is strictly below the capacity makes it stop
    and return exactly that many identifiers, the front of the buffer.
    Over a primitive backed by an injected list of fewer than [2 ^ 29]
    identifiers (where the byte size handed to the primitive still fits a
    [DWORD]), whatever number of doublings the list requires, the loop
    terminates and returns the injected list itself, so exactly the
    injected count; it has then asked once for each capacity 1024, 2048,
    ... up to the first one the list is shorter than. *)
Theorem enumerateProcessIds_returns_injected_count :
  (forall (OSState : Type) (api : Win32 OSState)
          (k fuel : nat) (w : World OSState),
      (forall i, (i < k)%nat -> buffer_full api i (w_os w)) ->
      enum_ok (reply_at api k (w_os w)) = true ->
      count_at api k (w_os w) < capacity k ->
      (k < fuel)%nat ->
      exists ids w',
        enumerateProcessIds api fuel w = (Returned ids, w') /\
        size ids = count_at api k (w_os w) /\
        ids = firstn (N.to_nat (count_at api k (w_os w)))
                (overwrite (enum_written (reply_at api k (w_os w)))
                   (buffer_before api k (w_os w))) /\
        w_calls w' = w_calls w ++ enum_calls 0 (S k) /\
        capacity 0 = 1024 /\
        (forall j, capacity (S j) = capacity j * 2) /\
        (forall j, request j = to_DWORD (capacity j * sizeof_DWORD))) /\
  (forall (s : Stub) (injected : list DWORD) (w : World DWORD),
      stub_ids s = Some injected ->
      size injected < 2 ^ 29 ->
      exists k,
        (k <= 19)%nat /\
        (forall i, (i < k)%nat -> capacity i <= size injected) /\
        size injected < capacity k /\
        forall fuel, (k < fuel)%nat ->
          exists ids w',
            enumerateProcessIds (stub_api s) fuel w = (Returned ids, w') /\
            ids = injected /\
            size ids = size injected /\
            w_calls w' = w_calls w ++ enum_calls 0 (S k)).
Proof.
  split.
  - intros OSState api k fuel w Hfull Hok Hfit Hfuel.
    destruct (enumerateProcessIds_doubles_until_fits api k fuel w Hfull Hok Hfit Hfuel)
      as (ids & w' & Hrun & Hsize & Hids & _ & Hcalls & Hcap).
    exists ids, w'. repeat (split; [assumption|]). exact Hcap.
  - intros s injected w Hstub Hsmall.
    destruct (doublings_exist (size injected)) as (k & Hk & Hmin).
    assert (Hk19 : (k <= 19)%nat).
    { destruct (Nat.le_gt_cases k 19) as [H|H]; [exact H|].
      pose proof (Hmin 19%nat H) as H19. rewrite capacity_19 in H19. lia. }
    exists k. split; [exact Hk19|]. split; [exact Hmin|]. split; [exact Hk|].
    intros fuel Hfuel.
    assert (Hcount : count_at (stub_api s) k (w_os w) = size injected).
    { rewrite (stub_count s injected Hstub) by lia. lia. }
    assert (Hwritten : enum_written (reply_at (stub_api s) k (w_os w)) = injected).
    { rewrite (stub_reply s injected Hstub). cbn [enum_written].
      rewrite request_exact by lia.
      unfold sizeof_DWORD. rewrite N.div_mul by discriminate.
      apply firstn_all2. unfold size in Hk. lia. }
    destruct (enumerateProcessIds_doubles_until_fits (stub_api s) k fuel w)
      as (ids & w' & Hrun & Hsize & _ & Hexact & Hcalls & _).
    + intros i Hi. split.
      * rewrite (stub_reply s injected Hstub). reflexivity.
      * rewrite (stub_count s injected Hstub) by lia.
        pose proof (Hmin i Hi). lia.
    + rewrite (stub_reply s injected Hstub). reflexivity.
    + rewrite Hcount. exact Hk.
    + exact Hfuel.
    + exists ids, w'. split; [exact Hrun|].
      assert (Hids : ids = injected).
      { rewrite <- Hwritten. apply Hexact. rewrite Hwritten, Hcount. reflexivity. }
      split; [exact Hids|]. split; [rewrite Hids; reflexivity|exact Hcalls].
Qed.

Lemma enumerateProcessIds_returns_injected_count_witness :
  exists w',
    enumerateProcessIds (stub_api stub_5000) 4 initial_world
    = (Returned (map N.of_nat (seq 1 5000)), w') /\
    w_calls w' = [CallEnumProcesses 4096; CallEnumProcesses 8192;
                  CallEnumProcesses 16384; CallEnumProcesses 32768].
Proof.
  destruct enumerateProcessIds_returns_injected_count as [_ Hinjected].
  destruct (Hinjected stub_5000 (map N.of_nat (seq 1 5000)) initial_world)
    as (k & _ & Hmin & Hk & Hrun).
  - reflexivity.
  - vm_compute. reflexivity.
  - assert (Hsize : size (map N.of_nat (seq 1 5000)) = 5000)
      by (vm_compute; reflexivity).
    assert (Hk' : 5000 < capacity k) by (rewrite <- Hsize; exact Hk).
    assert (Hk3 : k = 3%nat).
    { destruct (Nat.lt_trichotomy k 3) as [Hlt|[Heq|Hgt]]; [|exact Heq|].
      - pose proof (capacity_monotone k 2 ltac:(lia)) as Hcap.
        change (capacity 2) with 4096 in Hcap. lia.
      - assert (Hcap : capacity 3 <= 5000)
          by (rewrite <- Hsize; exact (Hmin 3%nat Hgt)).
        change (capacity 3) with 8192 in Hcap. lia. }
    subst k.
    destruct (Hrun 4%nat ltac:(lia)) as (ids & w' & Hrun4 & Hids & _ & Hcalls).
    exists w'. rewrite <- Hids. split; [exact Hrun4|]. exact Hcalls.
Defined.
